(** * Google Drive MCP server (src/index.ts): a shallow embedding

    The server maps eight tool names to handlers; each handler validates
    its string arguments, builds a Drive client from three secrets,
    issues one to three requests to the Drive API and renders the reply
    as text.  The embedding keeps the shape of the TypeScript source:

    - JavaScript strings are [string]s holding the UTF-8 bytes of the
      text ([String.prototype.trim] and [parseInt] strip the ECMAScript
      white space characters, also the multi-byte ones);
    - JavaScript numbers are [number]s: NaN, the two infinities, or a
      finite double given by its exact rational value.  [parseInt]
      rounds the integer it reads to the nearest double; a division by
      1024 is exact; [toFixed(2)] follows ECMAScript, with its exponent
      notation from 10^21 on;
    - [async] functions are programs of a small free monad [prog] whose
      events are log lines, the construction of the client and requests
      to the Drive API; [try]/[catch] is [try_catch]; a program is run
      against a [remote], which answers every request from the history
      of the events so far, with data or with a rejection;
    - the tool arguments are strings, as the registry declares them;
      [process.env] and the locale-dependent [Date.toLocaleString] are
      variables of the section [Server].

    Definitions come first: the JavaScript built-ins, the Drive API,
    programs, the server, the vocabulary of the statements.  The
    theorems follow; C1 to C10 are the properties stated of the server
    in its specification, each proved as stated or as the code has it. *)

From Stdlib Require Import ZArith QArith Qabs Qround Ascii String List Lia Bool Eqdep_dec.
From stdpp Require Import gmap strings pretty.

Set Default Proof Using "Type".

(** ** JavaScript values *)

(** A value of TypeScript type [T | null | undefined]. *)
Inductive nullable (A : Type) : Type :=
| undefined
| null
| value (a : A).
Arguments undefined {A}.
Arguments null {A}.
Arguments value {A} a.

(** [!!s] for a string: the empty string is falsy. *)
Definition truthy_string (s : string) : bool := negb (String.eqb s "").

(** [!!v] for an optional string. *)
Definition truthy (v : nullable string) : bool :=
  match v with
  | value s => truthy_string s
  | _ => false
  end.

(** [v || d] for an optional string [v] and a string [d]. *)
Definition or_default (v : nullable string) (d : string) : string :=
  match v with
  | value s => if truthy_string s then s else d
  | _ => d
  end.

(** A template literal's [${v}] for an optional string. *)
Definition show (v : nullable string) : string :=
  match v with
  | undefined => "undefined"
  | null => "null"
  | value s => s
  end.

(** ** White space, [trim] *)

Definition code (c : ascii) : N := N_of_ascii c.

(** One-byte white space and line terminators: TAB, LF, VT, FF, CR, SP. *)
Definition is_ws1 (c : ascii) : bool :=
  ((9 <=? code c) && (code c <=? 13) || (code c =? 32))%N.

(** Two-byte white space: U+00A0 (C2 A0). *)
Definition is_ws2 (a b : ascii) : bool :=
  ((code a =? 194) && (code b =? 160))%N.

(** Three-byte white space: U+1680, U+2000..U+200A, U+2028, U+2029,
    U+202F, U+205F, U+3000, U+FEFF. *)
Definition is_ws3 (a b c : ascii) : bool :=
  ((code a =? 225) && (code b =? 154) && (code c =? 128)
   || (code a =? 226) && (code b =? 128) &&
        ((128 <=? code c) && (code c <=? 138)
         || (code c =? 168) || (code c =? 169) || (code c =? 175))
   || (code a =? 226) && (code b =? 129) && (code c =? 159)
   || (code a =? 227) && (code b =? 128) && (code c =? 128)
   || (code a =? 239) && (code b =? 187) && (code c =? 191))%N.

(** Removes one white space character from the front, if there is one. *)
Definition strip_ws (s : string) : option string :=
  match s with
  | String a r1 =>
      if is_ws1 a then Some r1 else
      match r1 with
      | String b r2 =>
          if is_ws2 a b then Some r2 else
          match r2 with
          | String c r3 => if is_ws3 a b c then Some r3 else None
          | EmptyString => None
          end
      | EmptyString => None
      end
  | EmptyString => None
  end.

(** The same on the reversed string: one character from the end. *)
Definition strip_ws_rev (s : string) : option string :=
  match s with
  | String a r1 =>
      if is_ws1 a then Some r1 else
      match r1 with
      | String b r2 =>
          if is_ws2 b a then Some r2 else
          match r2 with
          | String c r3 => if is_ws3 c b a then Some r3 else None
          | EmptyString => None
          end
      | EmptyString => None
      end
  | EmptyString => None
  end.

Fixpoint strip_all (strip : string -> option string) (fuel : nat)
    (s : string) : string :=
  match fuel with
  | O => s
  | S fuel' =>
      match strip s with
      | Some r => strip_all strip fuel' r
      | None => s
      end
  end.

Definition trimStart (s : string) : string :=
  strip_all strip_ws (String.length s) s.

Definition trimEnd (s : string) : string :=
  String.rev (strip_all strip_ws_rev (String.length s) (String.rev s)).

(** [s.trim()] *)
Definition trim (s : string) : string := trimEnd (trimStart s).

(** ** Numbers *)

(** A JavaScript number.  [Fin q] is the finite double whose exact value
    is [q]; the sign of zero is not kept (nothing in the program tells
    the two zeros apart: both are falsy and both print as 0.00). *)
Inductive number : Type :=
| NaN
| Infinity (negative : bool)
| Fin (q : Q).

Definition isNaN (x : number) : bool :=
  match x with NaN => true | _ => false end.

(** The double nearest to the integer [z] (round to nearest, ties to
    even, 53 bits of precision, overflow to infinity). *)
Definition double_of_Z (z : Z) : number :=
  let a := Z.abs z in
  if (a <? 2 ^ 53)%Z then Fin (inject_Z z) else
  let e := (Z.log2 a - 52)%Z in
  let q := (a / 2 ^ e)%Z in
  let r := (a mod 2 ^ e)%Z in
  let half := (2 ^ (e - 1))%Z in
  let q' := if (r <? half)%Z then q
            else if (half <? r)%Z then (q + 1)%Z
            else if Z.even q then q else (q + 1)%Z in
  let v := (q' * 2 ^ e)%Z in
  if (2 ^ 1024 <=? v)%Z then Infinity (z <? 0)%Z
  else Fin (inject_Z (Z.sgn z * v)).

(** [x >= y] for a number [x] and a finite [y]. *)
Definition number_ge (x : number) (y : Q) : bool :=
  match x with
  | NaN => false
  | Infinity negative => negb negative
  | Fin q => Qle_bool y q
  end.

(** [x / 1024]: exact on doubles (a division by a power of two; the
    program only divides values that are at least 1024). *)
Definition number_div_1024 (x : number) : number :=
  match x with
  | Fin q => Fin (q / 1024)
  | _ => x
  end.

(** ** [parseInt] *)

(** The value of [c] as a digit in radix 10 or 16. *)
Definition digit (radix : Z) (c : ascii) : option Z :=
  let n := Z.of_N (code c) in
  if ((48 <=? n) && (n <=? 57))%Z then Some (n - 48)%Z
  else if (radix =? 16)%Z && ((97 <=? n) && (n <=? 102))%Z then Some (n - 87)%Z
  else if (radix =? 16)%Z && ((65 <=? n) && (n <=? 70))%Z then Some (n - 55)%Z
  else None.

(** The integer written by the longest prefix of [s] made of digits;
    [None] when that prefix is empty. *)
Fixpoint digits_value (radix : Z) (s : string) (acc : Z) (seen : bool)
    : option Z :=
  match s with
  | String c r =>
      match digit radix c with
      | Some d => digits_value radix r (acc * radix + d)%Z true
      | None => if seen then Some acc else None
      end
  | EmptyString => if seen then Some acc else None
  end.

(** The mathematical integer [parseInt(s)] reads, before it is rounded
    to a double: leading white space is skipped, then an optional sign,
    then an optional [0x]/[0X] (radix 16), then digits. *)
Definition parseInt_Z (s : string) : option Z :=
  let s0 := trimStart s in
  let '(sign, s1) :=
    match s0 with
    | String c r =>
        if (code c =? 45)%N then ((-1)%Z, r)
        else if (code c =? 43)%N then (1%Z, r)
        else (1%Z, s0)
    | EmptyString => (1%Z, s0)
    end in
  let '(radix, s2) :=
    if String.prefix "0x" s1 || String.prefix "0X" s1
    then (16%Z, String.substring 2 (String.length s1 - 2) s1)
    else (10%Z, s1) in
  match digits_value radix s2 0 false with
  | Some m => Some (sign * m)%Z
  | None => None
  end.

(** [parseInt(s)] *)
Definition parseInt (s : string) : number :=
  match parseInt_Z s with
  | Some z => double_of_Z z
  | None => NaN
  end.

(** ** [Number.prototype.toFixed(2)] *)

(** The decimal digits of a natural number, no leading zero. *)
Definition digits (n : Z) : string := pretty (Z.to_N n).

Fixpoint zeros (n : nat) : string :=
  match n with
  | O => ""
  | S n' => String "0" (zeros n')
  end.

(** [Number::toString] of an integer-valued double [x >= 10^21]: the
    shortest digit string [s] (of [k] digits) and exponent [n] with
    [s * 10^(n-k)] rounding to [x]; among them the closest to [x], an
    even [s] on a tie; printed in exponent notation. *)
Definition rounds_to (c x : Z) : bool :=
  match double_of_Z c with
  | Fin q => Qeq_bool q (inject_Z x)
  | _ => false
  end.

Definition shortest_candidates (x : Z) (k : Z) : list (Z * Z) :=
  let d := Z.of_nat (String.length (digits x)) in
  filter
    (fun '(s, n) =>
       (10 ^ (k - 1) <=? s)%Z && (s <? 10 ^ k)%Z && rounds_to (s * 10 ^ (n - k)) x)
    (flat_map
       (fun n => let p := (10 ^ (n - k))%Z in [((x / p)%Z, n); ((x / p + 1)%Z, n)])
       [(d - 1)%Z; d; (d + 1)%Z]).

Definition closer (x k : Z) (a b : Z * Z) : Z * Z :=
  let dist := fun '(s, n) => Z.abs (s * 10 ^ (n - k) - x) in
  if (dist a <? dist b)%Z then a
  else if (dist b <? dist a)%Z then b
  else if Z.even (fst a) then a else b.

Fixpoint shortest (x : Z) (k : Z) (fuel : nat) : Z * Z * Z :=
  match shortest_candidates x k with
  | c :: cs => (fold_left (closer x k) cs c, k)
  | [] =>
      match fuel with
      | O => (x, Z.of_nat (String.length (digits x)), k)
      | S fuel' => shortest x (k + 1) fuel'
      end
  end.

Definition exponent_notation (x : Z) : string :=
  let '(s, n, k) := shortest x 1 16 in
  let m := digits s in
  (if (k =? 1)%Z then m
   else String.substring 0 1 m +:+ "." +:+ String.substring 1 (String.length m - 1) m)
  +:+ "e+" +:+ digits (n - 1).

(** [x.toFixed(2)] *)
Definition toFixed2 (x : number) : string :=
  match x with
  | NaN => "NaN"
  | Infinity negative => if negative then "-Infinity" else "Infinity"
  | Fin q =>
      let s := if Qle_bool 0 q then "" else "-" in
      let a := Qabs q in
      if Qle_bool (inject_Z (10 ^ 21)) a
      then s +:+ exponent_notation (Qfloor a)
      else
        let n := Qfloor (a * 100 + (1 # 2)) in
        let m := digits n in
        let m := if (String.length m <=? 2)%nat
                 then zeros (3 - String.length m) +:+ m else m in
        let k := String.length m in
        s +:+ String.substring 0 (k - 2) m +:+ "." +:+ String.substring (k - 2) 2 m
  end.

(** ** Utility functions of index.ts *)

Definition units : list string := ["B"; "KB"; "MB"; "GB"; "TB"].

(** The [while] loop of [formatFileSize]; [fuel] bounds the number of
    iterations, which is at most [units.length - 1]. *)
Fixpoint scale (fuel : nat) (fileSize : number) (unitIndex : nat)
    : number * nat :=
  if number_ge fileSize 1024 && (unitIndex <? length units - 1)%nat then
    match fuel with
    | O => (fileSize, unitIndex)
    | S fuel' => scale fuel' (number_div_1024 fileSize) (S unitIndex)
    end
  else (fileSize, unitIndex).

(** [formatFileSize(bytes)] *)
Definition formatFileSize (bytes : nullable string) : string :=
  match bytes with
  | value b =>
      if negb (truthy_string b) then "N/A" else
      let size := parseInt b in
      if isNaN size then "N/A" else
      let '(fileSize, unitIndex) := scale (length units) size 0 in
      toFixed2 fileSize +:+ " " +:+ nth unitIndex units "undefined"
  | _ => "N/A"
  end.

(** ** The Drive API as the handlers use it *)

(** What a [throw] or a rejected promise carries: an [Error] object with
    its message, or any other value with its [String(...)] form. *)
Inductive thrown : Type :=
| Error (message : string)
| NonError (text : string).

(** [Schema$User], the fields read by index.ts. *)
Record User : Type := mkUser {
  displayName : nullable string;
  emailAddress : nullable string
}.

(** [Schema$File], the fields read by index.ts. *)
Record File : Type := mkFile {
  id : nullable string;
  name : nullable string;
  mimeType : nullable string;
  size : nullable string;
  createdTime : nullable string;
  modifiedTime : nullable string;
  webViewLink : nullable string;
  webContentLink : nullable string;
  owners : nullable (list User);
  description : nullable string;
  shared : nullable bool
}.

(** [Schema$Permission]: the server only asks for its id. *)
Record Permission : Type := mkPermission {
  permission_id : nullable string
}.

(** The [requestBody] of [files.create]; an absent field is [None]. *)
Record FileMetadata : Type := mkFileMetadata {
  meta_name : string;
  meta_mimeType : option string;
  meta_parents : option (list string)
}.

(** The [media] of [files.create]. *)
Record Media : Type := mkMedia {
  media_mimeType : string;
  media_body : string
}.

(** A request to the Drive v3 client.  [files_get_media] is
    [files.get] with [alt: "media"] and a text response; [files_delete]
    is the permanent delete of the API, which index.ts never calls. *)
Inductive request : Type :=
| files_list (pageSize : number) (q fields orderBy : string)
| files_get (fileId fields : string)
| files_get_media (fileId : string)
| files_export (fileId exportMimeType : string)
| files_create (requestBody : FileMetadata) (media : option Media) (fields : string)
| permissions_create (fileId type role email fields : string)
| files_update (fileId : string) (trashed : bool)
| files_delete (fileId : string).

#[global] Instance Q_eq_dec : EqDecision Q.
Proof. solve_decision. Defined.
#[global] Instance number_eq_dec : EqDecision number.
Proof. solve_decision. Defined.
#[global] Instance FileMetadata_eq_dec : EqDecision FileMetadata.
Proof. solve_decision. Defined.
#[global] Instance Media_eq_dec : EqDecision Media.
Proof. solve_decision. Defined.
#[global] Instance request_eq_dec : EqDecision request.
Proof. solve_decision. Defined.

(** The [data] of the response to a request. *)
Definition response (r : request) : Type :=
  match r with
  | files_list _ _ _ _ => nullable (list File)
  | files_get _ _ => File
  | files_get_media _ => string
  | files_export _ _ => string
  | files_create _ _ _ => File
  | permissions_create _ _ _ _ _ => Permission
  | files_update _ _ => File
  | files_delete _ => unit
  end.

(** A request changes the state of the drive unless it only reads. *)
Definition mutating (r : request) : bool :=
  match r with
  | files_list _ _ _ _ | files_get _ _ | files_get_media _ | files_export _ _ => false
  | _ => true
  end.

Inductive severity : Type := INFO | WARN | ERROR.

(** What a run of the server does, in order.  A request is recorded
    with its outcome: [inl e] is a rejected promise. *)
Inductive event : Type :=
| Log (level : severity) (line : string) (detail : option thrown)
| NewClient (clientId clientSecret refreshToken : string)
| Request (r : request) (outcome : thrown + response r).

(** ** Programs *)

(** An [async] function body: it returns, throws, emits an event that
    cannot fail, or awaits a request and goes on with its outcome. *)
Inductive prog (A : Type) : Type :=
| Ret (a : A)
| Throw (e : thrown)
| Emit (ev : event) (k : prog A)
| Await (r : request) (k : thrown + response r -> prog A).
Arguments Ret {A} a.
Arguments Throw {A} e.
Arguments Emit {A} ev k.
Arguments Await {A} r k.

Fixpoint bind {A B : Type} (p : prog A) (f : A -> prog B) : prog B :=
  match p with
  | Ret a => f a
  | Throw e => Throw e
  | Emit ev k => Emit ev (bind k f)
  | Await r k => Await r (fun o => bind (k o) f)
  end.

(** stdpp's monad notations: [x ← p; q] and [p;; q]. *)
#[global] Instance prog_ret : MRet prog := fun A a => Ret a.
#[global] Instance prog_bind : MBind prog := fun A B f p => bind p f.

(** [try { p } catch (error) { h error }] *)
Fixpoint try_catch {A : Type} (p : prog A) (h : thrown -> prog A) : prog A :=
  match p with
  | Ret a => Ret a
  | Throw e => h e
  | Emit ev k => Emit ev (try_catch k h)
  | Await r k => Await r (fun o => try_catch (k o) h)
  end.

(** [await drive.<request>]: a rejected promise is thrown. *)
Definition await (r : request) : prog (response r) :=
  Await r (fun o => match o with inl e => Throw e | inr x => Ret x end).

Definition emit (ev : event) : prog unit := Emit ev (Ret tt).

(** The remote service: its answer to a request, given everything the
    server has done and seen so far. *)
Definition remote : Type :=
  forall (history : list event) (r : request), thrown + response r.

(** Runs [p] after [history]: the events of the run in order, and how
    [p] ends ([inl e]: [e] is thrown out of [p]). *)
Fixpoint run {A : Type} (R : remote) (p : prog A) (history : list event)
    : list event * (thrown + A) :=
  match p with
  | Ret a => ([], inr a)
  | Throw e => ([], inl e)
  | Emit ev k =>
      let '(tr, o) := run R k (history ++ [ev]) in (ev :: tr, o)
  | Await r k =>
      let outcome := R history r in
      let '(tr, o) := run R (k outcome) (history ++ [Request r outcome]) in
      (Request r outcome :: tr, o)
  end.

(** The requests among the events. *)
Definition requests (tr : list event) : list request :=
  omap (fun ev => match ev with Request r _ => Some r | _ => None end) tr.

Definition is_NewClient (ev : event) : bool :=
  match ev with NewClient _ _ _ => true | _ => false end.

(** ** Numbers, continued: [||], [Math.max], [Math.min] *)

(** [x || d] on numbers: NaN and zero are falsy. *)
Definition number_or (x d : number) : number :=
  match x with
  | NaN => d
  | Infinity _ => x
  | Fin q => if Qeq_bool q 0 then d else x
  end.

Definition Math_max (x y : number) : number :=
  match x, y with
  | NaN, _ | _, NaN => NaN
  | Infinity false, _ | _, Infinity false => Infinity false
  | Infinity true, _ => y
  | _, Infinity true => x
  | Fin a, Fin b => if Qle_bool a b then y else x
  end.

Definition Math_min (x y : number) : number :=
  match x, y with
  | NaN, _ | _, NaN => NaN
  | Infinity true, _ | _, Infinity true => Infinity true
  | Infinity false, _ => y
  | _, Infinity false => x
  | Fin a, Fin b => if Qle_bool a b then x else y
  end.

(** The line feed and the double quote of the template literals. *)
Definition LF : string := String (ascii_of_nat 10) "".
Definition DQUOTE : string := String (ascii_of_nat 34) "".

(** ** The server *)

Section Server.

(** [process.env], and the locale-dependent rendering
    [new Date(s).toLocaleString()], which the host fixes. *)
Variable env : gmap string string.
Variable Date_toLocaleString : string -> string.

(** [process.env.X || ""] *)
Definition getenv (x : string) : string := default "" (env !! x).

Definition CLIENT_ID : string := getenv "GOOGLE_CLIENT_ID".
Definition CLIENT_SECRET : string := getenv "GOOGLE_CLIENT_SECRET".
Definition REFRESH_TOKEN : string := getenv "GOOGLE_REFRESH_TOKEN".

(** [logger.info], [logger.warn], [logger.error]: a line on stderr. *)
Definition logger (level : severity) (line : string) (detail : option thrown)
    : prog unit :=
  emit (Log level line detail).

(** [formatError(error)] *)
Definition formatError (error : thrown) : string :=
  match error with
  | Error message => "❌ Error: " +:+ message
  | NonError text => "❌ Error: " +:+ text
  end.

(** [validateRequired(value, name)] *)
Definition validateRequired (v : nullable string) (name : string) : prog string :=
  match v with
  | value s =>
      if negb (truthy_string s) || String.eqb (trim s) ""
      then Throw (Error (name +:+ " is required"))
      else Ret (trim s)
  | _ => Throw (Error (name +:+ " is required"))
  end.

(** The client [google.drive({version: "v3", auth})] stands for. *)
Record drive_client : Type := mkDrive {
  auth_clientId : string;
  auth_clientSecret : string;
  auth_refreshToken : string
}.

Definition missing_credentials : string :=
  "Missing Google Drive credentials. Set GOOGLE_CLIENT_ID, GOOGLE_CLIENT_SECRET, and GOOGLE_REFRESH_TOKEN".

(** [getDriveClient()] *)
Definition getDriveClient : prog drive_client :=
  if negb (truthy_string CLIENT_ID) || negb (truthy_string CLIENT_SECRET)
     || negb (truthy_string REFRESH_TOKEN)
  then Throw (Error missing_credentials)
  else
    emit (NewClient CLIENT_ID CLIENT_SECRET REFRESH_TOKEN);;
    Ret (mkDrive CLIENT_ID CLIENT_SECRET REFRESH_TOKEN).

(** [await drive.<request>(...)] *)
Definition send (drive : drive_client) (r : request) : prog (response r) :=
  await r.

(** [formatDate(dateString)] *)
Definition formatDate (dateString : nullable string) : string :=
  match dateString with
  | value s => if truthy_string s then Date_toLocaleString s else "N/A"
  | _ => "N/A"
  end.

(** [Math.min(Math.max(parseInt(pageSize) || 10, 1), 100)] *)
Definition pageSizeNum (pageSize : string) : number :=
  Math_min (Math_max (number_or (parseInt pageSize) (Fin 10)) (Fin 1)) (Fin 100).

Definition folder_mimeType : string := "application/vnd.google-apps.folder".

(** One round of the [files.forEach] of [listFiles] and [searchFiles]. *)
Definition render_file (result : string) (index : nat) (file : File) : string :=
  let isFolder :=
    match mimeType file with
    | value m => String.eqb m folder_mimeType
    | _ => false
    end in
  let icon := if isFolder then "📁" else "📄" in
  let result := result +:+ pretty (index + 1) +:+ ". " +:+ icon +:+ " "
                  +:+ show (name file) +:+ LF in
  let result := result +:+ "   ID: " +:+ show (id file) +:+ LF in
  let result := result +:+ "   Type: " +:+ show (mimeType file) +:+ LF in
  let result := result +:+ "   Size: " +:+ formatFileSize (size file) +:+ LF in
  let result := result +:+ "   Modified: " +:+ formatDate (modifiedTime file) +:+ LF in
  let result := if truthy (webViewLink file)
                then result +:+ "   Link: " +:+ show (webViewLink file) +:+ LF
                else result in
  result +:+ LF.

(** [files.forEach((file, index) => ...)] from [index] on. *)
Fixpoint render_files (result : string) (index : nat) (files : list File) : string :=
  match files with
  | [] => result
  | file :: rest => render_files (render_file result index file) (S index) rest
  end.

Definition list_fields : string :=
  "files(id, name, mimeType, size, modifiedTime, webViewLink, iconLink)".
Definition search_fields : string :=
  "files(id, name, mimeType, size, modifiedTime, webViewLink)".

(** The [try] block of [listFiles]. *)
Definition listFiles_try (folderId pageSize : string) : prog string :=
  drive ← getDriveClient;
  let query := "trashed = false" in
  let query := if truthy_string folderId && negb (String.eqb (trim folderId) "")
               then query +:+ " and '" +:+ trim folderId +:+ "' in parents"
               else query in
  files ← send drive (files_list (pageSizeNum pageSize) query list_fields "modifiedTime desc");
  match files with
  | value (file :: rest) =>
      let files := file :: rest in
      let result := "📁 Found " +:+ pretty (length files) +:+ " file(s):" +:+ LF +:+ LF in
      Ret (render_files result 0 files)
  | _ => Ret "📁 No files found"
  end.

(** [listFiles(folderId, pageSize)] *)
Definition listFiles (folderId pageSize : string) : prog string :=
  logger INFO ("Listing files, folder: " +:+ (if truthy_string folderId then folderId else "root")
               +:+ ", pageSize: " +:+ pageSize) None;;
  try_catch (listFiles_try folderId pageSize)
    (fun error => logger ERROR "Error in listFiles:" (Some error);; Ret (formatError error)).

(** The [try] block of [searchFiles]. *)
Definition searchFiles_try (query pageSize : string) : prog string :=
  searchQuery ← validateRequired (value query) "query";
  drive ← getDriveClient;
  let driveQuery := "name contains '" +:+ searchQuery +:+ "' and trashed = false" in
  files ← send drive (files_list (pageSizeNum pageSize) driveQuery search_fields "modifiedTime desc");
  match files with
  | value (file :: rest) =>
      let files := file :: rest in
      let result := "🔍 Found " +:+ pretty (length files) +:+ " file(s) matching " +:+ DQUOTE
                      +:+ searchQuery +:+ DQUOTE +:+ ":" +:+ LF +:+ LF in
      Ret (render_files result 0 files)
  | _ => Ret ("🔍 No files found matching " +:+ DQUOTE +:+ searchQuery +:+ DQUOTE)
  end.

(** [searchFiles(query, pageSize)] *)
Definition searchFiles (query pageSize : string) : prog string :=
  logger INFO ("Searching files with query: " +:+ query) None;;
  try_catch (searchFiles_try query pageSize)
    (fun error => logger ERROR "Error in searchFiles:" (Some error);; Ret (formatError error)).

(** The [try] block of [getFileMetadata]. *)
Definition getFileMetadata_try (fileId : string) : prog string :=
  validFileId ← validateRequired (value fileId) "fileId";
  drive ← getDriveClient;
  file ← send drive (files_get validFileId "*");
  let result := "📄 File Metadata:" +:+ LF +:+ LF in
  let result := result +:+ "Name: " +:+ show (name file) +:+ LF in
  let result := result +:+ "ID: " +:+ show (id file) +:+ LF in
  let result := result +:+ "Type: " +:+ show (mimeType file) +:+ LF in
  let result := result +:+ "Size: " +:+ formatFileSize (size file) +:+ LF in
  let result := result +:+ "Created: " +:+ formatDate (createdTime file) +:+ LF in
  let result := result +:+ "Modified: " +:+ formatDate (modifiedTime file) +:+ LF in
  let result :=
    match owners file with
    | value (owner :: _) =>
        result +:+ "Owner: "
          +:+ show (if truthy (displayName owner) then displayName owner
                    else emailAddress owner) +:+ LF
    | _ => result
    end in
  let result := if truthy (webViewLink file)
                then result +:+ "View Link: " +:+ show (webViewLink file) +:+ LF
                else result in
  let result := if truthy (webContentLink file)
                then result +:+ "Download Link: " +:+ show (webContentLink file) +:+ LF
                else result in
  let result := if truthy (description file)
                then result +:+ "Description: " +:+ show (description file) +:+ LF
                else result in
  let result := match shared file with
                | value true => result +:+ "Shared: Yes" +:+ LF
                | _ => result
                end in
  Ret result.

(** [getFileMetadata(fileId)] *)
Definition getFileMetadata (fileId : string) : prog string :=
  logger INFO ("Getting metadata for file: " +:+ fileId) None;;
  try_catch (getFileMetadata_try fileId)
    (fun error => logger ERROR "Error in getFileMetadata:" (Some error);; Ret (formatError error)).

(** The [try] block of [createFolder]. *)
Definition createFolder_try (folderName parentFolderId : string) : prog string :=
  validFolderName ← validateRequired (value folderName) "folderName";
  drive ← getDriveClient;
  let fileMetadata := mkFileMetadata validFolderName (Some folder_mimeType) None in
  let fileMetadata :=
    if truthy_string parentFolderId && negb (String.eqb (trim parentFolderId) "")
    then mkFileMetadata validFolderName (Some folder_mimeType) (Some [trim parentFolderId])
    else fileMetadata in
  folder ← send drive (files_create fileMetadata None "id, name, webViewLink");
  Ret ("✅ Folder created successfully:" +:+ LF +:+
       "Name: " +:+ show (name folder) +:+ LF +:+
       "ID: " +:+ show (id folder) +:+ LF +:+
       "Link: " +:+ or_default (webViewLink folder) "N/A").

(** [createFolder(folderName, parentFolderId)] *)
Definition createFolder (folderName parentFolderId : string) : prog string :=
  logger INFO ("Creating folder: " +:+ folderName) None;;
  try_catch (createFolder_try folderName parentFolderId)
    (fun error => logger ERROR "Error in createFolder:" (Some error);; Ret (formatError error)).

(** The [try] block of [uploadFile]. *)
Definition uploadFile_try (fileName content mimeType folderId : string) : prog string :=
  validFileName ← validateRequired (value fileName) "fileName";
  validContent ← validateRequired (value content) "content";
  drive ← getDriveClient;
  let fileMetadata := mkFileMetadata validFileName None None in
  let fileMetadata :=
    if truthy_string folderId && negb (String.eqb (trim folderId) "")
    then mkFileMetadata validFileName None (Some [trim folderId])
    else fileMetadata in
  let media := mkMedia (if truthy_string mimeType then mimeType else "text/plain")
                       validContent in
  file ← send drive (files_create fileMetadata (Some media) "id, name, webViewLink, size");
  Ret ("✅ File uploaded successfully:" +:+ LF +:+
       "Name: " +:+ show (name file) +:+ LF +:+
       "ID: " +:+ show (id file) +:+ LF +:+
       "Size: " +:+ formatFileSize (size file) +:+ LF +:+
       "Link: " +:+ or_default (webViewLink file) "N/A").

(** [uploadFile(fileName, content, mimeType, folderId)] *)
Definition uploadFile (fileName content mimeType folderId : string) : prog string :=
  logger INFO ("Uploading file: " +:+ fileName) None;;
  try_catch (uploadFile_try fileName content mimeType folderId)
    (fun error => logger ERROR "Error in uploadFile:" (Some error);; Ret (formatError error)).

Definition workspace_prefix : string := "application/vnd.google-apps.".
Definition document_mimeType : string := "application/vnd.google-apps.document".
Definition spreadsheet_mimeType : string := "application/vnd.google-apps.spreadsheet".
Definition presentation_mimeType : string := "application/vnd.google-apps.presentation".

(** [mimeType?.startsWith("application/vnd.google-apps.")] as a condition. *)
Definition is_workspace (mimeType : nullable string) : bool :=
  match mimeType with
  | value m => String.prefix workspace_prefix m
  | _ => false
  end.

(** [mimeType === s] *)
Definition strict_eq (mimeType : nullable string) (s : string) : bool :=
  match mimeType with
  | value m => String.eqb m s
  | _ => false
  end.

(** The [exportMimeType] chosen by [downloadFile]. *)
Definition exportMimeType (mimeType : nullable string) : string :=
  let exportMimeType := "text/plain" in
  if strict_eq mimeType document_mimeType then "text/plain"
  else if strict_eq mimeType spreadsheet_mimeType then "text/csv"
  else if strict_eq mimeType presentation_mimeType then "text/plain"
  else exportMimeType.

(** The [try] block of [downloadFile]. *)
Definition downloadFile_try (fileId : string) : prog string :=
  validFileId ← validateRequired (value fileId) "fileId";
  drive ← getDriveClient;
  metaResponse ← send drive (files_get validFileId "name, mimeType, size");
  let mimeType := mimeType metaResponse in
  if is_workspace mimeType then
    data ← send drive (files_export validFileId (exportMimeType mimeType));
    Ret ("📥 File: " +:+ show (name metaResponse) +:+ LF +:+
         "Type: " +:+ show mimeType +:+ LF +:+
         "Content:" +:+ LF +:+ LF +:+ data)
  else
    data ← send drive (files_get_media validFileId);
    Ret ("📥 File: " +:+ show (name metaResponse) +:+ LF +:+
         "Type: " +:+ show mimeType +:+ LF +:+
         "Size: " +:+ formatFileSize (size metaResponse) +:+ LF +:+
         "Content:" +:+ LF +:+ LF +:+ data).

(** [downloadFile(fileId)] *)
Definition downloadFile (fileId : string) : prog string :=
  logger INFO ("Downloading file: " +:+ fileId) None;;
  try_catch (downloadFile_try fileId)
    (fun error => logger ERROR "Error in downloadFile:" (Some error);; Ret (formatError error)).

Definition validRoles : list string := ["reader"; "writer"; "commenter"].

(** [validRoles.includes(role) ? role : "reader"] *)
Definition validRole (role : string) : string :=
  if existsb (String.eqb role) validRoles then role else "reader".

(** The [try] block of [shareFile]. *)
Definition shareFile_try (fileId email role : string) : prog string :=
  validFileId ← validateRequired (value fileId) "fileId";
  validEmail ← validateRequired (value email) "email";
  drive ← getDriveClient;
  let validRole := validRole role in
  send drive (permissions_create validFileId "user" validRole validEmail "id");;
  fileInfo ← send drive (files_get validFileId "name, webViewLink");
  Ret ("✅ File shared successfully:" +:+ LF +:+
       "File: " +:+ show (name fileInfo) +:+ LF +:+
       "Shared with: " +:+ validEmail +:+ LF +:+
       "Permission: " +:+ validRole +:+ LF +:+
       "Link: " +:+ or_default (webViewLink fileInfo) "N/A").

(** [shareFile(fileId, email, role)] *)
Definition shareFile (fileId email role : string) : prog string :=
  logger INFO ("Sharing file " +:+ fileId +:+ " with " +:+ email) None;;
  try_catch (shareFile_try fileId email role)
    (fun error => logger ERROR "Error in shareFile:" (Some error);; Ret (formatError error)).

(** The [try] block of [deleteFile]. *)
Definition deleteFile_try (fileId : string) : prog string :=
  validFileId ← validateRequired (value fileId) "fileId";
  drive ← getDriveClient;
  fileInfo ← send drive (files_get validFileId "name");
  send drive (files_update validFileId true);;
  Ret ("✅ File moved to trash:" +:+ LF +:+
       "Name: " +:+ show (name fileInfo) +:+ LF +:+
       "ID: " +:+ validFileId).

(** [deleteFile(fileId)] *)
Definition deleteFile (fileId : string) : prog string :=
  logger INFO ("Deleting file: " +:+ fileId) None;;
  try_catch (deleteFile_try fileId)
    (fun error => logger ERROR "Error in deleteFile:" (Some error);; Ret (formatError error)).

(** ** The tool registry and the dispatcher *)

(** A [Tool]: every property of its [inputSchema] has type string. *)
Record Tool : Type := mkTool {
  tool_name : string;
  tool_description : string;
  properties : list (string * string);
  required : list string
}.

Definition TOOLS : list Tool := [
  mkTool "list_files" "List files in Google Drive, optionally filtered by folder"
    [("folderId", "Optional folder ID to list files from (leave empty for root)");
     ("pageSize", "Number of files to return (1-100, default: 10)")]
    [];
  mkTool "search_files" "Search for files in Google Drive by name"
    [("query", "Search query (file name to search for)");
     ("pageSize", "Number of results to return (1-100, default: 10)")]
    ["query"];
  mkTool "get_file_metadata" "Get detailed metadata about a specific file"
    [("fileId", "The ID of the file to get metadata for")]
    ["fileId"];
  mkTool "create_folder" "Create a new folder in Google Drive"
    [("folderName", "Name of the folder to create");
     ("parentFolderId", "Optional parent folder ID (leave empty for root)")]
    ["folderName"];
  mkTool "upload_file" "Upload a text file to Google Drive"
    [("fileName", "Name of the file to create");
     ("content", "Content of the file");
     ("mimeType", "MIME type of the file (default: text/plain)");
     ("folderId", "Optional folder ID to upload to (leave empty for root)")]
    ["fileName"; "content"];
  mkTool "download_file" "Download content of a file from Google Drive"
    [("fileId", "The ID of the file to download")]
    ["fileId"];
  mkTool "share_file" "Share a file with a specific user via email"
    [("fileId", "The ID of the file to share");
     ("email", "Email address of the user to share with");
     ("role", "Permission role: reader, writer, or commenter (default: reader)")]
    ["fileId"; "email"];
  mkTool "delete_file" "Move a file to trash in Google Drive"
    [("fileId", "The ID of the file to delete")]
    ["fileId"]
].

Record TextContent : Type := mkTextContent {
  type : string;
  text : string
}.

(** The result of a tool call; [isError] is an optional field. *)
Record CallToolResult : Type := mkCallToolResult {
  content : list TextContent;
  isError : option bool
}.

(** [{content: [{type: "text", text}]}] *)
Definition text_result (text : string) : CallToolResult :=
  mkCallToolResult [mkTextContent "text" text] None.

(** The [ListToolsRequestSchema] handler. *)
Definition listTools : prog (list Tool) := Ret TOOLS.

(** The [arguments] of a call: an optional object with string values. *)
Definition arguments : Type := option (gmap string string).

(** [args?.key] *)
Definition arg (args : arguments) (key : string) : nullable string :=
  match args with
  | Some m =>
      match m !! key with
      | Some v => value v
      | None => undefined
      end
  | None => undefined
  end.

(** The [CallToolRequestSchema] handler. *)
Definition callTool (name : string) (args : arguments) : prog CallToolResult :=
  try_catch
    (if String.eqb name "list_files" then
       let folderId := or_default (arg args "folderId") "" in
       let pageSize := or_default (arg args "pageSize") "10" in
       text ← listFiles folderId pageSize;
       Ret (text_result text)
     else if String.eqb name "search_files" then
       let query := or_default (arg args "query") "" in
       let pageSize := or_default (arg args "pageSize") "10" in
       text ← searchFiles query pageSize;
       Ret (text_result text)
     else if String.eqb name "get_file_metadata" then
       let fileId := or_default (arg args "fileId") "" in
       text ← getFileMetadata fileId;
       Ret (text_result text)
     else if String.eqb name "create_folder" then
       let folderName := or_default (arg args "folderName") "" in
       let parentFolderId := or_default (arg args "parentFolderId") "" in
       text ← createFolder folderName parentFolderId;
       Ret (text_result text)
     else if String.eqb name "upload_file" then
       let fileName := or_default (arg args "fileName") "" in
       let content := or_default (arg args "content") "" in
       let mimeType := or_default (arg args "mimeType") "text/plain" in
       let folderId := or_default (arg args "folderId") "" in
       text ← uploadFile fileName content mimeType folderId;
       Ret (text_result text)
     else if String.eqb name "download_file" then
       let fileId := or_default (arg args "fileId") "" in
       text ← downloadFile fileId;
       Ret (text_result text)
     else if String.eqb name "share_file" then
       let fileId := or_default (arg args "fileId") "" in
       let email := or_default (arg args "email") "" in
       let role := or_default (arg args "role") "reader" in
       text ← shareFile fileId email role;
       Ret (text_result text)
     else if String.eqb name "delete_file" then
       let fileId := or_default (arg args "fileId") "" in
       text ← deleteFile fileId;
       Ret (text_result text)
     else Throw (Error ("Unknown tool: " +:+ name)))
    (fun error =>
       logger ERROR ("Error executing tool " +:+ name +:+ ":") (Some error);;
       Ret (mkCallToolResult [mkTextContent "text" (formatError error)] (Some true))).

(** ** Reading the dispatcher as a table

    The [switch] of [callTool] picks one handler call per tool name;
    [tool_call] names these calls with their arguments so that
    statements can range over "every handler". *)
Inductive tool_call : Type :=
| ListFiles (folderId pageSize : string)
| SearchFiles (query pageSize : string)
| GetFileMetadata (fileId : string)
| CreateFolder (folderName parentFolderId : string)
| UploadFile (fileName content mimeType folderId : string)
| DownloadFile (fileId : string)
| ShareFile (fileId email role : string)
| DeleteFile (fileId : string).

(** The handler call the [switch] makes for [name], if any. *)
Definition decode (name : string) (args : arguments) : option tool_call :=
  let a := fun key d => or_default (arg args key) d in
  if String.eqb name "list_files" then Some (ListFiles (a "folderId" "") (a "pageSize" "10"))
  else if String.eqb name "search_files" then Some (SearchFiles (a "query" "") (a "pageSize" "10"))
  else if String.eqb name "get_file_metadata" then Some (GetFileMetadata (a "fileId" ""))
  else if String.eqb name "create_folder" then
    Some (CreateFolder (a "folderName" "") (a "parentFolderId" ""))
  else if String.eqb name "upload_file" then
    Some (UploadFile (a "fileName" "") (a "content" "") (a "mimeType" "text/plain") (a "folderId" ""))
  else if String.eqb name "download_file" then Some (DownloadFile (a "fileId" ""))
  else if String.eqb name "share_file" then
    Some (ShareFile (a "fileId" "") (a "email" "") (a "role" "reader"))
  else if String.eqb name "delete_file" then Some (DeleteFile (a "fileId" ""))
  else None.

Definition handler (c : tool_call) : prog string :=
  match c with
  | ListFiles folderId pageSize => listFiles folderId pageSize
  | SearchFiles query pageSize => searchFiles query pageSize
  | GetFileMetadata fileId => getFileMetadata fileId
  | CreateFolder folderName parentFolderId => createFolder folderName parentFolderId
  | UploadFile fileName content mimeType folderId => uploadFile fileName content mimeType folderId
  | DownloadFile fileId => downloadFile fileId
  | ShareFile fileId email role => shareFile fileId email role
  | DeleteFile fileId => deleteFile fileId
  end.

(** The [try] block of the handler. *)
Definition try_block (c : tool_call) : prog string :=
  match c with
  | ListFiles folderId pageSize => listFiles_try folderId pageSize
  | SearchFiles query pageSize => searchFiles_try query pageSize
  | GetFileMetadata fileId => getFileMetadata_try fileId
  | CreateFolder folderName parentFolderId => createFolder_try folderName parentFolderId
  | UploadFile fileName content mimeType folderId =>
      uploadFile_try fileName content mimeType folderId
  | DownloadFile fileId => downloadFile_try fileId
  | ShareFile fileId email role => shareFile_try fileId email role
  | DeleteFile fileId => deleteFile_try fileId
  end.

(** The line the handler logs before its [try], and the label its
    [catch] logs with the error. *)
Definition info_line (c : tool_call) : string :=
  match c with
  | ListFiles folderId pageSize =>
      "Listing files, folder: " +:+ (if truthy_string folderId then folderId else "root")
        +:+ ", pageSize: " +:+ pageSize
  | SearchFiles query _ => "Searching files with query: " +:+ query
  | GetFileMetadata fileId => "Getting metadata for file: " +:+ fileId
  | CreateFolder folderName _ => "Creating folder: " +:+ folderName
  | UploadFile fileName _ _ _ => "Uploading file: " +:+ fileName
  | DownloadFile fileId => "Downloading file: " +:+ fileId
  | ShareFile fileId email _ => "Sharing file " +:+ fileId +:+ " with " +:+ email
  | DeleteFile fileId => "Deleting file: " +:+ fileId
  end.

Definition error_label (c : tool_call) : string :=
  match c with
  | ListFiles _ _ => "Error in listFiles:"
  | SearchFiles _ _ => "Error in searchFiles:"
  | GetFileMetadata _ => "Error in getFileMetadata:"
  | CreateFolder _ _ => "Error in createFolder:"
  | UploadFile _ _ _ _ => "Error in uploadFile:"
  | DownloadFile _ => "Error in downloadFile:"
  | ShareFile _ _ _ => "Error in shareFile:"
  | DeleteFile _ => "Error in deleteFile:"
  end.

(** ** Vocabulary of the statements *)

(** Some secret is empty or unset. *)
Definition credentials_missing : bool :=
  negb (truthy_string CLIENT_ID) || negb (truthy_string CLIENT_SECRET)
  || negb (truthy_string REFRESH_TOKEN).

(** [s] occurs in [t]. *)
Definition contains (s t : string) : Prop :=
  exists a b : string, t = a +:+ s +:+ b.

Fixpoint containsb (s t : string) : bool :=
  String.prefix s t ||
  match t with
  | String _ t' => containsb s t'
  | EmptyString => false
  end.

(** A required argument that fails [validateRequired]. *)
Definition blank (s : string) : bool := String.eqb (trim s) "".

(** The catch clause every handler ends with. *)
Definition catch_and_format (label : string) (error : thrown) : prog string :=
  logger ERROR label (Some error);; Ret (formatError error).

(** The shape every handler has: a logged line, then the [try] block
    under that catch clause. *)
Definition guarded (info label : string) (body : prog string) : prog string :=
  logger INFO info None;; try_catch body (catch_and_format label).

(** What [deleteFile] may ask of the drive: reads, and moving the file
    to the trash. *)
Definition trash_or_read (fileId : string) (r : request) : Prop :=
  mutating r = false \/ r = files_update (trim fileId) true.

(** ** Sample environments and remotes *)

Definition sample_env : gmap string string :=
  {[ "GOOGLE_CLIENT_ID" := "client-id";
     "GOOGLE_CLIENT_SECRET" := "client-secret";
     "GOOGLE_REFRESH_TOKEN" := "refresh-token" ]}.

(** The refresh token is not set. *)
Definition env_without_token : gmap string string :=
  {[ "GOOGLE_CLIENT_ID" := "client-id";
     "GOOGLE_CLIENT_SECRET" := "client-secret" ]}.

Definition sample_locale (s : string) : string := s.

Definition sample_file (mimeType : string) : File :=
  mkFile (value "file-0042") (value "report.txt") (value mimeType) (value "1536")
         (value "2024-01-01T00:00:00Z") (value "2024-01-02T00:00:00Z")
         null null null null null.

(** A drive on which every request succeeds: it holds one file [f]
    whose content is [data]. *)
Definition drive_with (f : File) (data : string) : remote :=
  fun _ r =>
    inr (match r return response r with
         | files_list _ _ _ _ => value [f]
         | files_get _ _ => f
         | files_get_media _ => data
         | files_export _ _ => data
         | files_create _ _ _ => f
         | permissions_create _ _ _ _ _ => mkPermission (value "perm-7731")
         | files_update _ _ => f
         | files_delete _ => tt
         end).

(** A drive that rejects every request. *)
Definition offline : remote :=
  fun _ _ => inl (Error "network unreachable").

(** The error [validateRequired] throws first in the handler of [c], if
    any: handlers check their required arguments in order. *)
Definition validation_error (c : tool_call) : option thrown :=
  let check := fun (s name : string) (next : option thrown) =>
    if blank s then Some (Error (name +:+ " is required")) else next in
  match c with
  | ListFiles _ _ => None
  | SearchFiles query _ => check query "query" None
  | GetFileMetadata fileId => check fileId "fileId" None
  | CreateFolder folderName _ => check folderName "folderName" None
  | UploadFile fileName content _ _ =>
      check fileName "fileName" (check content "content" None)
  | DownloadFile fileId => check fileId "fileId" None
  | ShareFile fileId email _ => check fileId "fileId" (check email "email" None)
  | DeleteFile fileId => check fileId "fileId" None
  end.

(** The result the dispatcher's own [catch] builds. *)
Definition error_result (error : thrown) : CallToolResult :=
  mkCallToolResult [mkTextContent "text" (formatError error)] (Some true).

(** The integer nearest to [z] in the interval from 1 to 100. *)
Definition clamp (z : Z) : Z := Z.min (Z.max z 1) 100.

(** The page size as the specification words it: the number the string
    parses to, clamped; 10 when the string does not parse. *)
Definition pageSize_claimed (pageSize : string) : Z :=
  match parseInt_Z pageSize with
  | Some z => clamp z
  | None => 10%Z
  end.

(** The page size the code computes: zero also yields 10. *)
Definition effective_pageSize (pageSize : string) : Z :=
  match parseInt_Z pageSize with
  | Some 0%Z | None => 10%Z
  | Some z => clamp z
  end.

(** A [files.list] request carries the page size [n]. *)
Definition lists_with (n : Z) (r : request) : Prop :=
  match r with
  | files_list pageSize _ _ _ => pageSize = Fin (inject_Z n)
  | _ => True
  end.

(** The file records an event delivers to a handler that reads them:
    the answers to [files.list], [files.get] and [files.create]. *)
Definition delivered_files (ev : event) : list File :=
  match ev with
  | Request r outcome =>
      match r return thrown + response r -> list File with
      | files_list _ _ _ _ =>
          fun o => match o with inr (value files) => files | _ => [] end
      | files_get _ _ => fun o => match o with inr f => [f] | inl _ => [] end
      | files_create _ _ _ => fun o => match o with inr f => [f] | inl _ => [] end
      | _ => fun _ => []
      end outcome
  | _ => []
  end.

Definition delivered (tr : list event) : list File := flat_map delivered_files tr.

(** The handlers whose text shows the id of the records they read. *)
Definition renders_ids (c : tool_call) : bool :=
  match c with
  | DownloadFile _ | ShareFile _ _ _ | DeleteFile _ => false
  | _ => true
  end.

(** A drive that answers as asked for [shareFile]: the new permission
    with its id, and of the file only its name. *)
Definition sharing_drive : remote :=
  drive_with (mkFile undefined (value "report.txt") undefined undefined undefined
                     undefined undefined undefined undefined undefined undefined)
             "".

(** What the text of a successful handler shows of the run [tr]: the
    name of every record delivered; their ids, for the handlers that
    render ids; and, for [deleteFile], the validated id it was given. *)
Definition shows (c : tool_call) (tr : list event) (text : string) : Prop :=
  (forall f s, In f (delivered tr) -> name f = value s -> contains s text)
  /\ (renders_ids c = true ->
      forall f s, In f (delivered tr) -> id f = value s -> contains s text)
  /\ (forall fileId, c = DeleteFile fileId -> contains (trim fileId) text).

(** ** The size format, as claimed and as computed *)

(** The index of the unit the loop of [formatFileSize] stops at for the
    byte count [v]: the first unit in which the value is below 1024, the
    last unit if there is none. *)
Definition unit_index (v : Z) : nat :=
  if (v <? 1024)%Z then 0
  else if (v <? 1024 ^ 2)%Z then 1
  else if (v <? 1024 ^ 3)%Z then 2
  else if (v <? 1024 ^ 4)%Z then 3
  else 4.

(** [v / 1024^k] in hundredths, rounded to the nearest, halves up. *)
Definition hundredths (v : Z) (k : nat) : Z :=
  ((200 * v + 1024 ^ Z.of_nat k) / (2 * 1024 ^ Z.of_nat k))%Z.

Definition digit_char (d : Z) : ascii := pretty_N_char (Z.to_N d).

(** [n] hundredths written with two decimal places. *)
Definition two_decimals (n : Z) : string :=
  digits (n / 100) +:+ "." +:+
  String (digit_char (n / 10 mod 10)) (String (digit_char (n mod 10)) "").

(** The unit the specification asks for: the first unit in which the
    magnitude, as displayed, is below 1024; TB if there is none. *)
Definition claimed_unit (v : Z) : nat :=
  if (hundredths v 0 <? 102400)%Z then 0
  else if (hundredths v 1 <? 102400)%Z then 1
  else if (hundredths v 2 <? 102400)%Z then 2
  else if (hundredths v 3 <? 102400)%Z then 3
  else 4.

(** [formatByteSize] as the specification words it, for a byte count. *)
Definition formatByteSize_claimed (v : Z) : string :=
  two_decimals (hundredths v (claimed_unit v)) +:+ " " +:+ nth (claimed_unit v) units "".

(** The value of the loop variable [fileSize] after [k] rounds. *)
Definition scaled (v : Z) (k : nat) : Q :=
  Nat.iter k (fun q => q / 1024)%Q (inject_Z v).

(** The arguments of the scenario of the specification: an empty query. *)
Definition empty_query_args : arguments :=
  Some {[ "query" := ""; "pageSize" := "5" ]}.

Definition share_args : arguments :=
  Some {[ "fileId" := "file-0042"; "email" := "ann@example.com"; "role" := "admin" ]}.

(** ** Vocabulary of further statements *)

(** A string as [validateRequired] returns it: not empty, and with no
    white space at either end. *)
Definition validated (s : string) : Prop :=
  s <> "" /\ strip_ws s = None /\ strip_ws_rev (String.rev s) = None.

(** Every character of [s] is a decimal digit. *)
Fixpoint all_digits (s : string) : Prop :=
  match s with
  | String c r => (48 <= code c <= 57)%N /\ all_digits r
  | EmptyString => True
  end.

(** The tools that only read the drive. *)
Definition read_only (c : tool_call) : bool :=
  match c with
  | ListFiles _ _ | SearchFiles _ _ | GetFileMetadata _ | DownloadFile _ => true
  | _ => false
  end.

(** The error a rejected request carries. *)
Definition rejection (ev : event) : option thrown :=
  match ev with
  | Request _ (inl e) => Some e
  | _ => None
  end.

(** A request names the file it is about by a validated id. *)
Definition names_valid_file (r : request) : Prop :=
  match r with
  | files_get fileId _ | files_get_media fileId | files_export fileId _
  | files_update fileId _ | permissions_create fileId _ _ _ _
  | files_delete fileId => validated fileId
  | _ => True
  end.

(** A permission is granted to a user, by a validated address, in one of
    the three roles. *)
Definition grants_valid_role (r : request) : Prop :=
  match r with
  | permissions_create _ type role email _ =>
      type = "user" /\ In role validRoles /\ validated email
  | _ => True
  end.

(** An item is created under a validated name, at the root or under one
    validated parent; it is a folder without content, or a file with a
    validated content and a media type. *)
Definition creates_valid_item (r : request) : Prop :=
  match r with
  | files_create meta media _ =>
      validated (meta_name meta)
      /\ match meta_parents meta with
         | Some parents => exists parent, parents = [parent] /\ validated parent
         | None => True
         end
      /\ match media with
         | Some m =>
             meta_mimeType meta = None /\ validated (media_body m)
             /\ media_mimeType m <> ""
         | None => meta_mimeType meta = Some folder_mimeType
         end
  | _ => True
  end.

(** A listing leaves the trash out, takes its files from the root, from
    a validated folder or by a validated name, newest first. *)
Definition lists_untrashed (r : request) : Prop :=
  match r with
  | files_list _ q _ orderBy =>
      orderBy = "modifiedTime desc"
      /\ (q = "trashed = false"
          \/ (exists folder, validated folder
                /\ q = "trashed = false and '" +:+ folder +:+ "' in parents")
          \/ (exists term, validated term
                /\ q = "name contains '" +:+ term +:+ "' and trashed = false"))
  | _ => True
  end.

Definition well_formed (r : request) : Prop :=
  names_valid_file r /\ grants_valid_role r /\ creates_valid_item r /\ lists_untrashed r.

(** A request that erases nothing for good: it is not the permanent
    delete, and an update only moves a file to the trash. *)
Definition erases_nothing (r : request) : Prop :=
  match r with
  | files_delete _ => False
  | files_update _ trashed => trashed = true
  | _ => True
  end.

(** The value of the argument [key] as the dispatcher sees it: an absent
    argument counts as the empty string. *)
Definition given (args : arguments) (key : string) : string :=
  or_default (arg args key) "".

(** The text [getFileMetadata] renders for a file. *)
Definition metadata_text (file : File) : string :=
  let result := "📄 File Metadata:" +:+ LF +:+ LF in
  let result := result +:+ "Name: " +:+ show (name file) +:+ LF in
  let result := result +:+ "ID: " +:+ show (id file) +:+ LF in
  let result := result +:+ "Type: " +:+ show (mimeType file) +:+ LF in
  let result := result +:+ "Size: " +:+ formatFileSize (size file) +:+ LF in
  let result := result +:+ "Created: " +:+ formatDate (createdTime file) +:+ LF in
  let result := result +:+ "Modified: " +:+ formatDate (modifiedTime file) +:+ LF in
  let result :=
    match owners file with
    | value (owner :: _) =>
        result +:+ "Owner: "
          +:+ show (if truthy (displayName owner) then displayName owner
                    else emailAddress owner) +:+ LF
    | _ => result
    end in
  let result := if truthy (webViewLink file)
                then result +:+ "View Link: " +:+ show (webViewLink file) +:+ LF
                else result in
  let result := if truthy (webContentLink file)
                then result +:+ "Download Link: " +:+ show (webContentLink file) +:+ LF
                else result in
  let result := if truthy (description file)
                then result +:+ "Description: " +:+ show (description file) +:+ LF
                else result in
  let result := match shared file with
                | value true => result +:+ "Shared: Yes" +:+ LF
                | _ => result
                end in
  result.
Arguments metadata_text : simpl never.

(** A drive on which permissions can be created and nothing else
    succeeds. *)
Definition permission_only_drive : remote :=
  fun _ r =>
    match r return thrown + response r with
    | permissions_create _ _ _ _ _ => inr (mkPermission (value "perm-7731"))
    | _ => inl (Error "File not found")
    end.

(** The content a download delivers. *)
Definition delivered_content (ev : event) : option string :=
  match ev with
  | Request r outcome =>
      match r return thrown + response r -> option string with
      | files_export _ _ => fun o => match o with inr data => Some data | inl _ => None end
      | files_get_media _ => fun o => match o with inr data => Some data | inl _ => None end
      | _ => fun _ => None
      end outcome
  | _ => None
  end.

(** The files a listing delivers. *)
Definition listed (ev : event) : option (nullable (list File)) :=
  match ev with
  | Request r outcome =>
      match r return thrown + response r -> option (nullable (list File)) with
      | files_list _ _ _ _ => fun o => match o with inr files => Some files | inl _ => None end
      | _ => fun _ => None
      end outcome
  | _ => None
  end.

(** A listing without entries: absent, null or empty. *)
Definition no_files (files : nullable (list File)) : Prop :=
  match files with
  | value (_ :: _) => False
  | _ => True
  end.

(** The marker of an error text. *)
Definition error_marker : string := "❌ Error: ".

(** Arguments with an extra one the tools do not declare. *)
Definition noisy_query_args : arguments :=
  Some {[ "query" := "report"; "fileId" := "file-0042"; "verbose" := "yes" ]}.

Definition query_args : arguments := Some {[ "query" := "report" ]}.

(** A drive that holds no files: listings are empty, nothing else
    succeeds. *)
Definition empty_drive : remote :=
  fun _ r =>
    match r return thrown + response r with
    | files_list _ _ _ _ => inr (value [])
    | _ => inl (Error "File not found")
    end.

(** Arguments of [share_file] whose email is blank. *)
Definition blank_email_args : arguments :=
  Some {[ "fileId" := "file-0042"; "email" := "   " ]}.

(** ** The built-ins on known values *)

Example trim_examples :
  trim "  a b  " = "a b" /\ trim "   " = "" /\ trim "x" = "x"
  /\ trim (String (ascii_of_nat 194) (String (ascii_of_nat 160) "x")) = "x".
Proof. vm_compute. repeat split. Qed.

Example parseInt_examples :
  parseInt "42" = Fin 42 /\ parseInt "  12abc" = Fin 12 /\ parseInt "-7" = Fin (-7)
  /\ parseInt "1.5" = Fin 1 /\ parseInt "0x1F" = Fin 31 /\ parseInt "abc" = NaN
  /\ parseInt "" = NaN /\ parseInt "0x" = NaN
  /\ parseInt "9007199254740993" = Fin 9007199254740992.
Proof. vm_compute. repeat split. Qed.

Example toFixed2_examples :
  toFixed2 (Fin 0) = "0.00" /\ toFixed2 (Fin (3 # 2)) = "1.50"
  /\ toFixed2 (Fin (1 # 8)) = "0.13" /\ toFixed2 (Fin (-5)) = "-5.00"
  /\ toFixed2 (Fin (1047552 # 1024)) = "1023.00"
  /\ toFixed2 (double_of_Z (10 ^ 21)) = "1e+21"
  /\ toFixed2 (double_of_Z (2 ^ 70)) = "1.1805916207174113e+21"
  /\ toFixed2 (Infinity false) = "Infinity".
Proof. vm_compute. repeat split. Qed.

Example formatFileSize_examples :
  formatFileSize (value "0") = "0.00 B" /\ formatFileSize (value "1023") = "1023.00 B"
  /\ formatFileSize (value "1024") = "1.00 KB" /\ formatFileSize (value "1536") = "1.50 KB"
  /\ formatFileSize (value "1073741824") = "1.00 GB"
  /\ formatFileSize (value "1125899906842624") = "1024.00 TB"
  /\ formatFileSize (value "abc") = "N/A" /\ formatFileSize undefined = "N/A".
Proof. vm_compute. repeat split. Qed.

(** ** Strings *)

Lemma append_cons (x : ascii) (a b : string) : String x a +:+ b = String x (a +:+ b).
Proof. reflexivity. Qed.

Lemma append_assoc (a b c : string) : (a +:+ b) +:+ c = a +:+ b +:+ c.
Proof.
  induction a as [|x a IH]; [reflexivity|].
  rewrite !append_cons, IH. reflexivity.
Qed.

Lemma append_nil_r (a : string) : a +:+ "" = a.
Proof.
  induction a as [|x a IH]; [reflexivity|].
  rewrite append_cons, IH. reflexivity.
Qed.

Lemma length_append (a b : string) :
  String.length (a +:+ b) = (String.length a + String.length b)%nat.
Proof.
  induction a as [|x a IH]; [reflexivity|].
  rewrite append_cons. cbn [String.length]. rewrite IH. reflexivity.
Qed.

Lemma prefix_iff (s t : string) :
  String.prefix s t = true <-> exists b, t = s +:+ b.
Proof.
  revert t. induction s as [|x s IH]; intros t.
  - destruct t; cbn [String.prefix]; split; eauto.
  - destruct t as [|y t]; cbn [String.prefix].
    + split; [discriminate|]. intros [b Hb]. discriminate Hb.
    + destruct (Ascii.ascii_dec x y) as [->|Hxy].
      * rewrite IH. split; intros [b Hb]; exists b; rewrite append_cons in *; congruence.
      * split; [discriminate|]. intros [b Hb]. rewrite append_cons in Hb. congruence.
Qed.

Lemma containsb_iff (s t : string) : containsb s t = true <-> contains s t.
Proof.
  unfold contains. induction t as [|y t IH]; cbn [containsb].
  - rewrite orb_false_r, prefix_iff. split.
    + intros [b Hb]. exists "", b. exact Hb.
    + intros (a & b & H). destruct a; [exists b; exact H|discriminate H].
  - rewrite orb_true_iff, prefix_iff, IH. split.
    + intros [[b Hb]|(a & b & Hab)].
      * exists "", b. exact Hb.
      * exists (String y a), b. rewrite append_cons. congruence.
    + intros (a & b & H). destruct a as [|x a].
      * left. exists b. exact H.
      * right. exists a, b. rewrite append_cons in H. congruence.
Qed.

Lemma contains_self (s : string) : contains s s.
Proof. exists "", "". rewrite append_nil_r. reflexivity. Qed.

Lemma contains_app_l (s a b : string) : contains s a -> contains s (a +:+ b).
Proof.
  intros (x & y & ->). exists x, (y +:+ b). rewrite !append_assoc. reflexivity.
Qed.

Lemma contains_app_r (s a b : string) : contains s b -> contains s (a +:+ b).
Proof.
  intros (x & y & ->). exists (a +:+ x), y. rewrite !append_assoc. reflexivity.
Qed.

(** Finds [s] among the pieces of a concatenation. *)
Ltac find_in :=
  solve
    [ assumption
    | apply contains_self
    | apply contains_app_l; find_in
    | apply contains_app_r; find_in ].

(** ** The bounded loops run to their end *)

Lemma strip_ws_shorter (s r : string) :
  strip_ws s = Some r -> (String.length r < String.length s)%nat.
Proof.
  unfold strip_ws.
  destruct s as [|a [|b [|c r3]]]; cbn [String.length];
    repeat match goal with
           | |- context [if ?b then _ else _] => destruct b
           end;
    intros [= <-]; cbn [String.length]; lia.
Qed.

Lemma strip_ws_rev_shorter (s r : string) :
  strip_ws_rev s = Some r -> (String.length r < String.length s)%nat.
Proof.
  unfold strip_ws_rev.
  destruct s as [|a [|b [|c r3]]]; cbn [String.length];
    repeat match goal with
           | |- context [if ?b then _ else _] => destruct b
           end;
    intros [= <-]; cbn [String.length]; lia.
Qed.

(** With fuel for every character, stripping goes on until nothing is
    left to strip. *)
Lemma strip_all_done (strip : string -> option string) (fuel : nat) :
  (forall s r, strip s = Some r -> (String.length r < String.length s)%nat) ->
  forall s, (String.length s <= fuel)%nat -> strip (strip_all strip fuel s) = None.
Proof.
  intros Hshorter. induction fuel as [|fuel IH]; intros s Hlen; cbn [strip_all].
  - destruct (strip s) as [r|] eqn:Hs; [|reflexivity].
    apply Hshorter in Hs. lia.
  - destruct (strip s) as [r|] eqn:Hs; [|exact Hs].
    apply IH. apply Hshorter in Hs. lia.
Qed.

Lemma rev_app_length (a b : string) :
  String.length (String.rev_app a b) = (String.length a + String.length b)%nat.
Proof.
  revert b. induction a as [|x a IH]; intros b; cbn [String.rev_app String.length].
  - reflexivity.
  - rewrite IH. cbn [String.length]. lia.
Qed.

Lemma rev_app_rev_app (a b c : string) :
  String.rev_app (String.rev_app a b) c = String.rev_app b (a +:+ c).
Proof.
  revert b c. induction a as [|x a IH]; intros b c; cbn [String.rev_app].
  - reflexivity.
  - rewrite IH. cbn [String.rev_app]. rewrite append_cons. reflexivity.
Qed.

Lemma rev_involutive (s : string) : String.rev (String.rev s) = s.
Proof.
  unfold String.rev. rewrite rev_app_rev_app. cbn [String.rev_app].
  apply append_nil_r.
Qed.

(** [trim] leaves no white space at either end. *)
Lemma trimStart_stripped (s : string) : strip_ws (trimStart s) = None.
Proof.
  unfold trimStart. apply strip_all_done; [apply strip_ws_shorter|lia].
Qed.

Lemma trimEnd_stripped (s : string) : strip_ws_rev (String.rev (trimEnd s)) = None.
Proof.
  unfold trimEnd. rewrite rev_involutive.
  apply strip_all_done; [apply strip_ws_rev_shorter|].
  unfold String.rev. rewrite rev_app_length. cbn [String.length]. lia.
Qed.

(** The loop of [formatFileSize] ends within [units.length] rounds: more
    fuel does not change its result. *)
Lemma scale_fuel (fuel : nat) :
  forall (x : number) (i : nat),
    (length units - 1 - i < fuel)%nat -> scale (S fuel) x i = scale fuel x i.
Proof.
  induction fuel as [|fuel IH]; intros x i Hi; [lia|].
  cbn [scale].
  destruct (number_ge x 1024); cbn [andb]; [|reflexivity].
  destruct (Nat.ltb_spec i (length units - 1)); [|reflexivity].
  rewrite <- (IH (number_div_1024 x) (S i)) by lia. reflexivity.
Qed.

Lemma scale_enough_fuel (x : number) (n : nat) :
  scale (length units + n) x 0 = scale (length units) x 0.
Proof.
  induction n as [|n IH]; [rewrite Nat.add_0_r; reflexivity|].
  rewrite Nat.add_succ_r, scale_fuel by (cbn; lia). exact IH.
Qed.

(** ** Running programs *)

Lemma run_bind {A B : Type} (R : remote) (p : prog A) (f : A -> prog B) (h : list event) :
  run R (p ≫= f) h =
  match run R p h with
  | (tr, inl e) => (tr, inl e)
  | (tr, inr a) => let '(tr', o) := run R (f a) (h ++ tr) in (tr ++ tr', o)
  end.
Proof.
  unfold mbind, prog_bind. revert h.
  induction p as [a|e|ev k IH|r k IH]; intros h; simpl.
  - rewrite app_nil_r. destruct (run R (f a) h); reflexivity.
  - reflexivity.
  - rewrite IH. destruct (run R k (h ++ [ev])) as [tr [e|a]]; [reflexivity|].
    rewrite <- app_assoc. simpl. destruct (run R (f a) _); reflexivity.
  - rewrite IH. destruct (run R (k (R h r)) _) as [tr [e|a]]; [reflexivity|].
    rewrite <- app_assoc. simpl. destruct (run R (f a) _); reflexivity.
Qed.

Lemma run_try_catch {A : Type} (R : remote) (p : prog A) (c : thrown -> prog A)
    (h : list event) :
  run R (try_catch p c) h =
  match run R p h with
  | (tr, inl e) => let '(tr', o) := run R (c e) (h ++ tr) in (tr ++ tr', o)
  | (tr, inr a) => (tr, inr a)
  end.
Proof.
  revert h. induction p as [a|e|ev k IH|r k IH]; intros h; simpl.
  - reflexivity.
  - rewrite app_nil_r. destruct (run R (c e) h); reflexivity.
  - rewrite IH. destruct (run R k (h ++ [ev])) as [tr [e|a]]; [|reflexivity].
    rewrite <- app_assoc. simpl. destruct (run R (c e) _); reflexivity.
  - rewrite IH. destruct (run R (k (R h r)) _) as [tr [e|a]]; [|reflexivity].
    rewrite <- app_assoc. simpl. destruct (run R (c e) _); reflexivity.
Qed.

Lemma trim_empty : trim "" = "".
Proof. reflexivity. Qed.

Lemma validate_condition (s : string) :
  negb (truthy_string s) || String.eqb (trim s) "" = blank s.
Proof.
  unfold blank, truthy_string. destruct (String.eqb_spec s "") as [->|]; auto.
Qed.

Lemma run_validateRequired (R : remote) (s name : string) (h : list event) :
  run R (validateRequired (value s) name) h =
  ([], if blank s then inl (Error (name +:+ " is required")) else inr (trim s)).
Proof.
  unfold validateRequired. rewrite validate_condition. destruct (blank s); reflexivity.
Qed.

Lemma run_getDriveClient (R : remote) (h : list event) :
  run R getDriveClient h =
  if credentials_missing then ([], inl (Error missing_credentials))
  else ([NewClient CLIENT_ID CLIENT_SECRET REFRESH_TOKEN],
        inr (mkDrive CLIENT_ID CLIENT_SECRET REFRESH_TOKEN)).
Proof.
  unfold getDriveClient. fold credentials_missing.
  destruct credentials_missing; reflexivity.
Qed.

Lemma run_send (R : remote) (d : drive_client) (r : request) (h : list event) :
  run R (send d r) h = ([Request r (R h r)], R h r).
Proof.
  unfold send, await. simpl. destruct (R h r); reflexivity.
Qed.

Lemma run_logger (R : remote) (l : severity) (s : string) (d : option thrown) (h : list event) :
  run R (logger l s d) h = ([Log l s d], inr tt).
Proof. reflexivity. Qed.

Lemma run_catch_and_format (R : remote) (label : string) (e : thrown) (h : list event) :
  run R (catch_and_format label e) h = ([Log ERROR label (Some e)], inr (formatError e)).
Proof. reflexivity. Qed.

(** A handler logs a line, runs its [try] block, and turns whatever the
    block throws into a logged, formatted text. *)
Lemma run_guarded (R : remote) (info label : string) (body : prog string) (h : list event) :
  run R (guarded info label body) h =
  match run R body (h ++ [Log INFO info None]) with
  | (tr, inl e) =>
      (Log INFO info None :: tr ++ [Log ERROR label (Some e)], inr (formatError e))
  | (tr, inr a) => (Log INFO info None :: tr, inr a)
  end.
Proof.
  unfold guarded. rewrite run_bind, run_logger, run_try_catch.
  destruct (run R body _) as [tr [e|a]]; auto.
Qed.

Lemma handler_shape (c : tool_call) :
  handler c = guarded (info_line c) (error_label c) (try_block c).
Proof. destruct c; reflexivity. Qed.

(** The outcome recorded with a request is determined by the event. *)
Lemma Request_inj (r : request) (o1 o2 : thrown + response r) :
  Request r o1 = Request r o2 -> o1 = o2.
Proof.
  intros H. injection H as H.
  apply (inj_pair2_eq_dec _ request_eq_dec) in H. exact H.
Qed.

(** Symbolic execution of a handler body: [run] is pushed through the
    binds, and the run splits on every test and every answer. *)
Ltac run_norm :=
  rewrite <- ?app_assoc; cbn [app]; cbn beta iota zeta.

Ltac run_step :=
  match goal with
  | |- context [run _ (_ ≫= _) _] => rewrite run_bind
  | |- context [run _ (validateRequired _ _) _] => rewrite run_validateRequired
  | |- context [run _ getDriveClient _] => rewrite run_getDriveClient
  | |- context [@run ?A ?R (send ?d ?r) ?h] =>
      change (@run A R (send d r) h) with (@run (response r) R (send d r) h);
      rewrite (run_send R d r h)
  | |- context [run _ (logger _ _ _) _] => rewrite run_logger
  | |- context [run _ (catch_and_format _ _) _] => rewrite run_catch_and_format
  | |- context [run _ (Ret _) _] => cbn [run]
  | |- context [if blank ?s then _ else _] => destruct (blank s) eqn:?
  | |- context [if credentials_missing then _ else _] =>
      destruct credentials_missing eqn:?
  | |- context [match ?R ?h ?r with inl _ => _ | inr _ => _ end] =>
      destruct (R h r) eqn:?
  | |- context [if is_workspace ?m then _ else _] => destruct (is_workspace m) eqn:?
  | |- context [run _ (match ?x with undefined => _ | null => _ | value _ => _ end) _] =>
      destruct x
  | |- context [run _ (match ?l with [] => _ | _ :: _ => _ end) _] => destruct l
  end; run_norm.

Ltac run_all := run_norm; repeat run_step.

(** ** deleteFile *)

(** Every way a run of the [try] block of [deleteFile] can go. *)
Lemma run_deleteFile_try (R : remote) (fileId : string) (h : list event) :
  run R (deleteFile_try fileId) h =
  if blank fileId then ([], inl (Error "fileId is required")) else
  if credentials_missing then ([], inl (Error missing_credentials)) else
  let new := NewClient CLIENT_ID CLIENT_SECRET REFRESH_TOKEN in
  let get := files_get (trim fileId) "name" in
  let update := files_update (trim fileId) true in
  match R (h ++ [new]) get with
  | inl e => ([new; Request get (inl e)], inl e)
  | inr fileInfo =>
      match R (h ++ [new; Request get (inr fileInfo)]) update with
      | inl e => ([new; Request get (inr fileInfo); Request update (inl e)], inl e)
      | inr f =>
          ([new; Request get (inr fileInfo); Request update (inr f)],
           inr ("✅ File moved to trash:" +:+ LF +:+
                "Name: " +:+ show (name fileInfo) +:+ LF +:+
                "ID: " +:+ trim fileId))
      end
  end.
Proof.
  unfold deleteFile_try. run_all; reflexivity.
Qed.

(** C5: whatever the drive answers, every request [deleteFile] issues
    either only reads or is the update that sets [trashed] to true on
    the validated file id; the permanent delete of the API is never
    among its requests. *)
Theorem deleteFile_only_trashes (R : remote) (fileId : string) (h : list event) :
  Forall (trash_or_read fileId) (requests (run R (deleteFile fileId) h).1)
  /\ Forall (fun r => match r with files_delete _ => False | _ => True end)
       (requests (run R (deleteFile fileId) h).1).
Proof.
  change (deleteFile fileId)
    with (guarded ("Deleting file: " +:+ fileId) "Error in deleteFile:" (deleteFile_try fileId)).
  rewrite run_guarded, run_deleteFile_try.
  unfold trash_or_read.
  repeat match goal with
         | |- context [if ?b then _ else _] => destruct b
         | |- context [match ?o with inl _ => _ | inr _ => _ end] => destruct o
         end;
    cbn; split;
    repeat first
      [ apply List.Forall_nil
      | apply List.Forall_cons;
        [first [left; reflexivity | right; reflexivity | exact I]|] ].
Qed.

(** C10: [deleteFile] asks for the file's name before it trashes the
    file (its requests are a prefix of "get the name, set trashed", and
    an update is only issued after the name was delivered); when the
    file id fails validation, or the fetch of the name is rejected, no
    request that changes the drive is issued and the handler returns the
    formatted error. *)
Theorem deleteFile_atomic (R : remote) (fileId : string) (h : list event) :
  let get := files_get (trim fileId) "name" in
  let update := files_update (trim fileId) true in
  let tr := (run R (deleteFile fileId) h).1 in
  let res := (run R (deleteFile fileId) h).2 in
  (requests tr = [] \/ requests tr = [get]
   \/ (requests tr = [get; update] /\ exists fileInfo, In (Request get (inr fileInfo)) tr))
  /\ (blank fileId = true ->
      requests tr = [] /\ res = inr (formatError (Error "fileId is required")))
  /\ (forall e, In (Request get (inl e)) tr ->
      Forall (fun r => mutating r = false) (requests tr) /\ res = inr (formatError e)).
Proof.
  change (deleteFile fileId)
    with (guarded ("Deleting file: " +:+ fileId) "Error in deleteFile:" (deleteFile_try fileId)).
  rewrite run_guarded, run_deleteFile_try. cbv zeta.
  destruct (blank fileId) eqn:Hblank.
  { cbn. split; [auto|]. split; [auto|]. intros e [H|[H|[]]]; discriminate. }
  destruct credentials_missing.
  { cbn. split; [auto|]. split; [discriminate|]. intros e [H|[H|[]]]; discriminate. }
  destruct (R _ (files_get _ _)) as [e|fileInfo] eqn:Hget.
  { cbn. split; [auto|]. split; [discriminate|].
    intros e' [H|[H|[H|[H|[]]]]]; try discriminate.
    injection H as ->. split; [repeat constructor|reflexivity]. }
  destruct (R _ (files_update _ _)) as [e|f].
  - cbn. split; [right; right; split; eauto|]. split; [discriminate|].
    intros e' [H|[H|[H|[H|[H|[]]]]]]; discriminate.
  - cbn. split; [right; right; split; eauto|]. split; [discriminate|].
    intros e' [H|[H|[H|[H|[]]]]]; discriminate.
Qed.

(** ** The dispatcher *)

Lemma callTool_decode (name : string) (args : arguments) :
  callTool name args =
  try_catch
    match decode name args with
    | Some c => text ← handler c; Ret (text_result text)
    | None => Throw (Error ("Unknown tool: " +:+ name))
    end
    (fun error =>
       logger ERROR ("Error executing tool " +:+ name +:+ ":") (Some error);;
       Ret (error_result error)).
Proof.
  unfold callTool, decode.
  repeat match goal with
         | |- context [String.eqb name ?s] => destruct (String.eqb name s)
         end; reflexivity.
Qed.

(** The tools [decode] knows are the tools of the registry. *)
Lemma decode_registered (name : string) (args : arguments) :
  is_Some (decode name args) <-> In name (map tool_name TOOLS).
Proof.
  unfold decode. cbn [TOOLS map tool_name In].
  repeat match goal with
         | |- context [String.eqb name ?s] =>
             destruct (String.eqb_spec name s) as [->|?]
         end;
    split; intros H; eauto 12; try (destruct H as [? H]; discriminate H);
    repeat (destruct H as [H|H]; [congruence|]); destruct H.
Qed.

(** A run of the dispatcher, in terms of the [try] block of the handler
    it picks. *)
Lemma run_callTool (R : remote) (name : string) (args : arguments) (h : list event) :
  run R (callTool name args) h =
  match decode name args with
  | Some c =>
      let info := Log INFO (info_line c) None in
      match run R (try_block c) (h ++ [info]) with
      | (tr, inl e) =>
          (info :: tr ++ [Log ERROR (error_label c) (Some e)],
           inr (text_result (formatError e)))
      | (tr, inr text) => (info :: tr, inr (text_result text))
      end
  | None =>
      let e := Error ("Unknown tool: " +:+ name) in
      ([Log ERROR ("Error executing tool " +:+ name +:+ ":") (Some e)],
       inr (error_result e))
  end.
Proof.
  rewrite callTool_decode, run_try_catch.
  destruct (decode name args) as [c|]; [|reflexivity].
  rewrite run_bind, handler_shape, run_guarded. cbv zeta.
  destruct (run R (try_block c) _) as [tr [e|text]]; cbn; rewrite app_nil_r; reflexivity.
Qed.

(** Without credentials a [try] block ends before its first request:
    it throws the first validation error, or else the configuration
    error of [getDriveClient]. *)
Lemma run_try_block_missing (R : remote) (c : tool_call) (h : list event) :
  credentials_missing = true ->
  run R (try_block c) h =
  ([], inl (default (Error missing_credentials) (validation_error c))).
Proof.
  intros Hmissing.
  destruct c; cbn [try_block validation_error];
    unfold listFiles_try, searchFiles_try, getFileMetadata_try, createFolder_try,
      uploadFile_try, downloadFile_try, shareFile_try, deleteFile_try;
    run_all; try discriminate; reflexivity.
Qed.

Lemma credentials_missing_iff :
  credentials_missing = true <->
  CLIENT_ID = "" \/ CLIENT_SECRET = "" \/ REFRESH_TOKEN = "".
Proof.
  unfold credentials_missing, truthy_string.
  destruct (String.eqb_spec CLIENT_ID ""), (String.eqb_spec CLIENT_SECRET ""),
    (String.eqb_spec REFRESH_TOKEN ""); cbn; intuition congruence.
Qed.

(** The required fields of the registry are the arguments the handlers
    validate. *)
Lemma required_validated (tool : Tool) (args : arguments) (c : tool_call) :
  In tool TOOLS ->
  decode (tool_name tool) args = Some c ->
  (forall f, In f (required tool) -> blank (or_default (arg args f) "") = false) ->
  validation_error c = None.
Proof.
  intros Htool Hc Hreq. cbn [TOOLS In] in Htool.
  repeat (destruct Htool as [<-|Htool]; [
    cbn in Hc; injection Hc as <-; cbn [validation_error required] in *;
    rewrite ?Hreq by (cbn; auto); reflexivity |]).
  destruct Htool.
Qed.

(** C1, as the code has it: a call of the dispatcher always returns a
    result, nothing is thrown out of it.  Whatever the [try] block of
    the chosen handler throws (a validation failure, the missing
    credentials, a rejected request) is caught by that handler and comes
    back as the text [formatError] gives it, in a result whose [isError]
    field is absent; only an unknown tool name yields [isError: true]. *)
Theorem handler_errors_become_text (R : remote) (name : string) (args : arguments)
    (h : list event) :
  (exists result, (run R (callTool name args) h).2 = inr result)
  /\ (forall c tr e,
        decode name args = Some c ->
        run R (try_block c) (h ++ [Log INFO (info_line c) None]) = (tr, inl e) ->
        (run R (callTool name args) h).2
        = inr (mkCallToolResult [mkTextContent "text" (formatError e)] None))
  /\ (decode name args = None ->
        (run R (callTool name args) h).2
        = inr (mkCallToolResult
                 [mkTextContent "text" ("❌ Error: Unknown tool: " +:+ name)] (Some true))).
Proof.
  rewrite run_callTool. split; [|split].
  - destruct (decode name args) as [c|]; cbv zeta; [|eauto].
    destruct (run R (try_block c) _) as [tr [e|text]]; eauto.
  - intros c tr e -> Hrun. cbv zeta. rewrite Hrun. reflexivity.
  - intros ->. reflexivity.
Qed.

(** C8: when a secret is empty, no call of a tool constructs a client
    or issues a request, and every call whose required arguments pass
    validation returns the configuration error as formatted text. *)
Theorem missing_credentials_fail_closed (R : remote) (name : string) (args : arguments)
    (h : list event) :
  CLIENT_ID = "" \/ CLIENT_SECRET = "" \/ REFRESH_TOKEN = "" ->
  requests (run R (callTool name args) h).1 = []
  /\ existsb is_NewClient (run R (callTool name args) h).1 = false
  /\ (forall tool,
        In tool TOOLS -> tool_name tool = name ->
        (forall f, In f (required tool) -> blank (or_default (arg args f) "") = false) ->
        (run R (callTool name args) h).2
        = inr (text_result ("❌ Error: " +:+ missing_credentials))).
Proof.
  intros Hmissing%credentials_missing_iff. rewrite run_callTool.
  destruct (decode name args) as [c|] eqn:Hc; cbv zeta.
  - rewrite run_try_block_missing by assumption. cbn.
    split; [reflexivity|]. split; [reflexivity|].
    intros tool Htool <- Hreq.
    rewrite (required_validated tool args c Htool Hc Hreq). reflexivity.
  - cbn. split; [reflexivity|]. split; [reflexivity|].
    intros tool Htool <- Hreq.
    assert (is_Some (decode (tool_name tool) args)) as [c Hc'].
    { apply decode_registered. apply in_map. assumption. }
    congruence.
Qed.

(** C6: a call of [search_files] whose query is empty or only white
    space does exactly two things, both log lines: it fails validation
    before a client is constructed or a request is issued, and returns
    the validation error as text. *)
Theorem search_files_empty_query (R : remote) (args : arguments) (h : list event) :
  let query := or_default (arg args "query") "" in
  blank query = true ->
  run R (callTool "search_files" args) h
  = ([Log INFO ("Searching files with query: " +:+ query) None;
      Log ERROR "Error in searchFiles:" (Some (Error "query is required"))],
     inr (text_result "❌ Error: query is required"))
  /\ requests (run R (callTool "search_files" args) h).1 = []
  /\ existsb is_NewClient (run R (callTool "search_files" args) h).1 = false.
Proof.
  intros query Hblank. rewrite run_callTool.
  change (decode "search_files" args)
    with (Some (SearchFiles query (or_default (arg args "pageSize") "10"))).
  cbn [try_block info_line error_label]. cbv zeta.
  unfold searchFiles_try. rewrite run_bind, run_validateRequired, Hblank.
  cbn. auto.
Qed.

(** ** downloadFile *)

Lemma strict_eq_true (m : nullable string) (s : string) :
  strict_eq m s = true -> m = value s.
Proof.
  destruct m as [| |x]; cbn; try discriminate.
  intros H%String.eqb_eq. congruence.
Qed.

Lemma exportMimeType_target (m : nullable string) :
  exportMimeType m
  = if strict_eq m spreadsheet_mimeType then "text/csv" else "text/plain".
Proof.
  unfold exportMimeType.
  destruct (strict_eq m document_mimeType) eqn:Hdoc.
  - apply strict_eq_true in Hdoc. subst m. reflexivity.
  - destruct (strict_eq m spreadsheet_mimeType); [reflexivity|].
    destruct (strict_eq m presentation_mimeType); reflexivity.
Qed.

(** C3: once the metadata of the file is delivered, [downloadFile]
    issues exactly one more request.  For a type with the prefix of the
    native workspace types it is an export: to text/plain for documents
    and presentations, to text/csv for spreadsheets (text/plain for the
    other types with that prefix), and never a media download; for
    every other type (or none) it is the media download of the file,
    and no export. *)
Theorem downloadFile_export_or_media (R : remote) (fileId : string) (h : list event)
    (meta : File) :
  let get := files_get (trim fileId) "name, mimeType, size" in
  let tr := (run R (downloadFile fileId) h).1 in
  In (Request get (inr meta)) tr ->
  (strict_eq (mimeType meta) document_mimeType = true ->
     requests tr = [get; files_export (trim fileId) "text/plain"])
  /\ (strict_eq (mimeType meta) spreadsheet_mimeType = true ->
     requests tr = [get; files_export (trim fileId) "text/csv"])
  /\ (strict_eq (mimeType meta) presentation_mimeType = true ->
     requests tr = [get; files_export (trim fileId) "text/plain"])
  /\ (is_workspace (mimeType meta) = true ->
     requests tr
     = [get; files_export (trim fileId)
               (if strict_eq (mimeType meta) spreadsheet_mimeType
                then "text/csv" else "text/plain")])
  /\ (is_workspace (mimeType meta) = false ->
     requests tr = [get; files_get_media (trim fileId)]).
Proof.
  cbv zeta.
  change (downloadFile fileId)
    with (guarded ("Downloading file: " +:+ fileId) "Error in downloadFile:"
            (downloadFile_try fileId)).
  rewrite run_guarded. unfold downloadFile_try. run_all; cbn [fst In app].
  all: intros Hin;
    repeat (destruct Hin as [Hin|Hin]; try discriminate Hin); try contradiction.
  all: apply Request_inj in Hin; try discriminate Hin.
  all: injection Hin as <-.
  all: cbn [requests omap app fst]; rewrite ?exportMimeType_target.
  all: repeat split; intros Hm; try congruence.
  all: apply strict_eq_true in Hm; rewrite Hm in *; cbn in *;
    try discriminate; reflexivity.
Qed.

(** ** shareFile *)

Lemma validRole_fallback (role : string) :
  existsb (String.eqb role) validRoles = false -> validRole role = "reader".
Proof. unfold validRole. intros ->. reflexivity. Qed.

(** C4: with a role outside reader, writer, commenter, [shareFile] does
    what it does for the role reader, event for event: no error comes
    from the role.  Every permission it creates has role reader (and it
    does create one once validation and the credentials pass), and when
    the file's name is delivered the text reports reader as the
    permission. *)
Theorem shareFile_invalid_role_reader (R : remote) (fileId email role : string)
    (h : list event) :
  existsb (String.eqb role) validRoles = false ->
  let tr := (run R (shareFile fileId email role) h).1 in
  let res := (run R (shareFile fileId email role) h).2 in
  let create := permissions_create (trim fileId) "user" "reader" (trim email) "id" in
  run R (shareFile fileId email role) h = run R (shareFile fileId email "reader") h
  /\ Forall (fun r => match r with
                      | permissions_create _ _ _ _ _ => r = create
                      | _ => True
                      end) (requests tr)
  /\ (blank fileId = false -> blank email = false -> credentials_missing = false ->
      exists rest, requests tr = create :: rest)
  /\ (forall fileInfo,
        In (Request (files_get (trim fileId) "name, webViewLink") (inr fileInfo)) tr ->
        res = inr ("✅ File shared successfully:" +:+ LF +:+
                   "File: " +:+ show (name fileInfo) +:+ LF +:+
                   "Shared with: " +:+ trim email +:+ LF +:+
                   "Permission: reader" +:+ LF +:+
                   "Link: " +:+ or_default (webViewLink fileInfo) "N/A")).
Proof.
  intros Hrole. cbv zeta. split.
  { unfold shareFile, shareFile_try. rewrite (validRole_fallback role Hrole). reflexivity. }
  change (shareFile fileId email role)
    with (guarded ("Sharing file " +:+ fileId +:+ " with " +:+ email) "Error in shareFile:"
            (shareFile_try fileId email role)).
  rewrite run_guarded. unfold shareFile_try.
  rewrite (validRole_fallback role Hrole).
  run_all; cbn [fst snd requests omap app].
  all: split; [repeat first [apply List.Forall_nil | apply List.Forall_cons; [auto|]]|].
  all: split; [intros; try discriminate; eauto|].
  all: intros fileInfo Hin;
    repeat (destruct Hin as [Hin|Hin]; try discriminate Hin); try contradiction.
  all: apply Request_inj in Hin; try discriminate Hin.
  all: injection Hin as <-; reflexivity.
Qed.

(** ** The page size *)

(** Rounding an integer to a double keeps small integers, and sends the
    others to an infinity or to an integer at least as large as 2^53, of
    the same sign. *)
Lemma double_of_Z_cases (z : Z) :
  ((Z.abs z < 2 ^ 53)%Z /\ double_of_Z z = Fin (inject_Z z))
  \/ ((2 ^ 53 <= Z.abs z)%Z
      /\ (double_of_Z z = Infinity (z <? 0)%Z
          \/ exists v, (2 ^ 53 <= v)%Z /\ double_of_Z z = Fin (inject_Z (Z.sgn z * v)))).
Proof.
  unfold double_of_Z.
  destruct (Z.ltb_spec (Z.abs z) (2 ^ 53)) as [Hlt|Hge]; [left; auto|right].
  split; [assumption|].
  set (a := Z.abs z) in *. set (e := (Z.log2 a - 52)%Z).
  assert (0 < a)%Z as Hpos by (change (2 ^ 53)%Z with 9007199254740992%Z in Hge; lia).
  assert (53 <= Z.log2 a)%Z as Hlog by (apply Z.log2_le_pow2; lia).
  assert (2 ^ Z.log2 a <= a)%Z as Hlow by (apply Z.log2_spec; lia).
  assert (0 < 2 ^ e)%Z as Hpe by (apply Z.pow_pos_nonneg; lia).
  assert (2 ^ 52 <= a / 2 ^ e)%Z as Hq.
  { apply Z.div_le_lower_bound; [lia|].
    rewrite Z.mul_comm, <- Z.pow_add_r by lia.
    replace (52 + e)%Z with (Z.log2 a) by lia. assumption. }
  assert (2 <= 2 ^ e)%Z as H2e.
  { change 2%Z with (2 ^ 1)%Z at 1. apply Z.pow_le_mono_r; lia. }
  match goal with
  | |- context [if (2 ^ 1024 <=? ?v)%Z then _ else _] =>
      destruct (Z.leb_spec (2 ^ 1024) v); [left; reflexivity|right; exists v]
  end.
  split; [|reflexivity].
  change (2 ^ 53)%Z with (2 ^ 52 * 2)%Z.
  apply Z.mul_le_mono_nonneg; try lia.
  repeat match goal with |- context [if ?b then _ else _] => destruct b end; lia.
Qed.

Lemma Qle_bool_inject (a b : Z) : Qle_bool (inject_Z a) (inject_Z b) = (a <=? b)%Z.
Proof. unfold Qle_bool; cbn. rewrite !Z.mul_1_r. reflexivity. Qed.

Lemma Qeq_bool_inject (a b : Z) : Qeq_bool (inject_Z a) (inject_Z b) = (a =? b)%Z.
Proof. unfold Qeq_bool; cbn. rewrite !Z.mul_1_r. reflexivity. Qed.

(** Clamping the double of a non-zero integer is clamping the integer. *)
Lemma clamp_double (z : Z) :
  z <> 0%Z ->
  Math_min (Math_max (number_or (double_of_Z z) (Fin 10)) (Fin 1)) (Fin 100)
  = Fin (inject_Z (clamp z)).
Proof.
  intros Hz. unfold clamp.
  assert (forall x : Z, x <> 0%Z ->
    Math_min (Math_max (number_or (Fin (inject_Z x)) (Fin 10)) (Fin 1)) (Fin 100)
    = Fin (inject_Z (Z.min (Z.max x 1) 100))) as Hfin.
  { intros x Hx. cbn [number_or]. change 0%Q with (inject_Z 0).
    rewrite Qeq_bool_inject. destruct (Z.eqb_spec x 0) as [|_]; [contradiction|].
    cbn [Math_max]. change 1%Q with (inject_Z 1). rewrite Qle_bool_inject.
    destruct (Z.leb_spec x 1).
    - replace (Z.min (Z.max x 1) 100) with 1%Z by lia. reflexivity.
    - cbn [Math_min]. change 100%Q with (inject_Z 100). rewrite Qle_bool_inject.
      destruct (Z.leb_spec x 100); f_equal; f_equal; lia. }
  change (2 ^ 53)%Z with 9007199254740992%Z in *.
  destruct (double_of_Z_cases z) as [[_ ->]|[Hbig [->|(v & Hv & ->)]]].
  - apply Hfin, Hz.
  - destruct (Z.ltb_spec z 0).
    + replace (Z.min (Z.max z 1) 100) with 1%Z by lia. reflexivity.
    + replace (Z.min (Z.max z 1) 100) with 100%Z by lia. reflexivity.
  - assert (Z.sgn z * v <> 0)%Z as Hne by (destruct z; cbn in *; lia).
    rewrite (Hfin _ Hne). f_equal. f_equal.
    destruct z; cbn [Z.sgn Z.abs] in *; lia.
Qed.

Lemma pageSizeNum_effective (pageSize : string) :
  pageSizeNum pageSize = Fin (inject_Z (effective_pageSize pageSize)).
Proof.
  unfold pageSizeNum, effective_pageSize, parseInt.
  destruct (parseInt_Z pageSize) as [z|]; [|reflexivity].
  destruct (Z.eq_dec z 0%Z) as [->|Hz]; [reflexivity|].
  rewrite clamp_double by assumption. destruct z; try contradiction; reflexivity.
Qed.

Lemma effective_pageSize_range (pageSize : string) :
  (1 <= effective_pageSize pageSize <= 100)%Z.
Proof.
  unfold effective_pageSize, clamp.
  destruct (parseInt_Z pageSize) as [[| |]|]; lia.
Qed.

(** C7, as the code has it: the page size sent with a [files.list]
    request, by [listFiles] and by [searchFiles], is the number the
    string parses to, clamped to the interval from 1 to 100, and 10 when
    the string does not parse or parses to zero; it always lies between
    1 and 100. *)
Theorem pageSize_effective (R : remote) (folderId query pageSize : string)
    (h : list event) :
  let n := effective_pageSize pageSize in
  pageSizeNum pageSize = Fin (inject_Z n)
  /\ (1 <= n <= 100)%Z
  /\ Forall (lists_with n) (requests (run R (listFiles folderId pageSize) h).1)
  /\ Forall (lists_with n) (requests (run R (searchFiles query pageSize) h).1)
  /\ (credentials_missing = false ->
      exists q,
        requests (run R (listFiles folderId pageSize) h).1
        = [files_list (Fin (inject_Z n)) q list_fields "modifiedTime desc"])
  /\ (credentials_missing = false -> blank query = false ->
      requests (run R (searchFiles query pageSize) h).1
      = [files_list (Fin (inject_Z n))
           ("name contains '" +:+ trim query +:+ "' and trashed = false")
           search_fields "modifiedTime desc"]).
Proof.
  cbv zeta.
  split; [apply pageSizeNum_effective|].
  split; [apply effective_pageSize_range|].
  change (listFiles folderId pageSize)
    with (guarded (info_line (ListFiles folderId pageSize)) "Error in listFiles:"
            (listFiles_try folderId pageSize)).
  change (searchFiles query pageSize)
    with (guarded (info_line (SearchFiles query pageSize)) "Error in searchFiles:"
            (searchFiles_try query pageSize)).
  rewrite !run_guarded. unfold listFiles_try, searchFiles_try.
  rewrite <- pageSizeNum_effective.
  repeat split.
  all: run_all; cbn [fst requests omap app lists_with]; intros; try discriminate.
  all: eauto;
    repeat first
      [ apply List.Forall_nil
      | apply List.Forall_cons; [cbn; auto using pageSizeNum_effective|] ].
Qed.

(** ** What the texts show *)

Lemma render_file_keeps (s result : string) (index : nat) (file : File) :
  contains s result -> contains s (render_file result index file).
Proof.
  intros H. unfold render_file. destruct (truthy (webViewLink file)); find_in.
Qed.

Lemma render_file_name (s result : string) (index : nat) (file : File) :
  name file = value s -> contains s (render_file result index file).
Proof.
  intros H. unfold render_file. rewrite H. cbn [show].
  destruct (truthy (webViewLink file)); find_in.
Qed.

Lemma render_file_id (s result : string) (index : nat) (file : File) :
  id file = value s -> contains s (render_file result index file).
Proof.
  intros H. unfold render_file. rewrite H. cbn [show].
  destruct (truthy (webViewLink file)); find_in.
Qed.

Lemma render_files_keeps (s : string) (files : list File) :
  forall result index,
    contains s result -> contains s (render_files result index files).
Proof.
  induction files as [|file rest IH]; intros result index H; cbn [render_files].
  - exact H.
  - apply IH, render_file_keeps, H.
Qed.

(** The listing shows the name and the id of every file listed. *)
Lemma render_files_shows (s : string) (files : list File) (f : File) :
  forall result index,
    In f files -> name f = value s \/ id f = value s ->
    contains s (render_files result index files).
Proof.
  induction files as [|file rest IH]; intros result index Hin Hs; [destruct Hin|].
  cbn [render_files]. destruct Hin as [->|Hin].
  - apply render_files_keeps.
    destruct Hs; [apply render_file_name|apply render_file_id]; assumption.
  - apply IH; assumption.
Qed.

(** Case analysis on everything a rendered text depends on. *)
Ltac split_text :=
  repeat match goal with
         | |- context [if ?b then _ else _] => destruct b
         | |- context [match ?x with undefined => _ | null => _ | value _ => _ end] =>
             destruct x
         | |- context [match ?l with [] => _ | _ :: _ => _ end] => destruct l
         | |- context [match ?b with true => _ | false => _ end] => destruct b
         end.

Lemma try_block_shows (R : remote) (c : tool_call) (h : list event) :
  match run R (try_block c) h with
  | (tr, inr text) => shows c tr text
  | (_, inl _) => True
  end.
Proof.
  destruct c; cbn [try_block];
    unfold listFiles_try, searchFiles_try, getFileMetadata_try, createFolder_try,
      uploadFile_try, downloadFile_try, shareFile_try, deleteFile_try;
    run_all; try exact I.
  all: unfold shows; cbn [delivered flat_map delivered_files app renders_ids].
  all: split; [|split]; try discriminate.
  all: try (intros ? [=]; subst; find_in).
  all: try (intros _); intros file0 shown Hin Hs.
  all: try (destruct Hin; fail).
  all: try (eapply render_files_shows; [rewrite app_nil_r in Hin; exact Hin|auto]; fail).
  all: destruct Hin as [<-|[]].
  all: rewrite ?Hs; cbn [show]; split_text; try find_in.
Qed.

(** ** Decimal digits *)

Lemma pretty_N_go_app (x : N) (s : string) :
  pretty_N_go x s = pretty_N_go x "" +:+ s.
Proof.
  revert s. induction (N.lt_wf_0 x) as [x _ IH]. intros s.
  destruct (N.eq_dec x 0%N) as [->|Hx]; [reflexivity|].
  rewrite (pretty_N_go_step x s), (pretty_N_go_step x "") by lia.
  assert (x / 10 < x)%N as Hlt by (apply N.div_lt; lia).
  rewrite (IH _ Hlt (String _ s)), (IH _ Hlt (String _ "")).
  rewrite append_assoc. reflexivity.
Qed.

Lemma pretty_N_small (x : N) :
  (x < 10)%N -> pretty x = String (pretty_N_char x) "".
Proof.
  intros Hx. unfold pretty, pretty_N. destruct (decide (x = 0%N)) as [->|H0]; [reflexivity|].
  rewrite pretty_N_go_step by lia.
  rewrite N.div_small, N.mod_small by lia. reflexivity.
Qed.

Lemma pretty_N_step (x : N) :
  (10 <= x)%N -> pretty x = pretty (x / 10)%N +:+ String (pretty_N_char (x mod 10)) "".
Proof.
  intros Hx. unfold pretty, pretty_N.
  assert (0 < x / 10)%N by (apply N.div_str_pos; lia).
  destruct (decide (x = 0%N)); [lia|]. destruct (decide ((x / 10)%N = 0%N)); [lia|].
  rewrite pretty_N_go_step by lia. apply pretty_N_go_app.
Qed.

Lemma pretty_N_length (x : N) : (1 <= String.length (pretty x))%nat.
Proof.
  destruct (N.lt_ge_cases x 10%N) as [H|H].
  - rewrite pretty_N_small by assumption. cbn. lia.
  - rewrite pretty_N_step, length_append by assumption. cbn. lia.
Qed.

Lemma substring_all (a : string) : String.substring 0 (String.length a) a = a.
Proof. induction a as [|x a IH]; cbn; [reflexivity|]. rewrite IH. reflexivity. Qed.

Lemma substring_app_l (a b : string) :
  String.substring 0 (String.length a) (a +:+ b) = a.
Proof.
  induction a as [|x a IH]; [destruct b; reflexivity|].
  rewrite append_cons. cbn. rewrite IH. reflexivity.
Qed.

Lemma substring_app_r (a b : string) :
  String.substring (String.length a) (String.length b) (a +:+ b) = b.
Proof.
  induction a as [|x a IH]; [apply substring_all|].
  rewrite append_cons. cbn. exact IH.
Qed.

(** Splitting the digits of the hundredths before the last two gives
    the two decimal places. *)
Lemma fixed_digits (n : Z) :
  (0 <= n)%Z ->
  let m := digits n in
  let m := if (String.length m <=? 2)%nat
           then zeros (3 - String.length m) +:+ m else m in
  let k := String.length m in
  String.substring 0 (k - 2) m +:+ "." +:+ String.substring (k - 2) 2 m
  = two_decimals n.
Proof.
  intros Hn. unfold two_decimals, digits, digit_char.
  assert (0 <= n / 10)%Z by (apply Z.div_pos; lia).
  rewrite Z2N.inj_div, !Z2N.inj_mod, Z2N.inj_div by lia.
  change (Z.to_N 100) with 100%N. change (Z.to_N 10) with 10%N.
  set (x := Z.to_N n). clearbody x. clear.
  destruct (N.lt_ge_cases x 10%N) as [H10|H10].
  - rewrite (pretty_N_small x), (N.div_small x 100%N), (N.div_small x 10%N),
      (N.mod_small x 10%N) by lia.
    reflexivity.
  - rewrite (pretty_N_step x) by assumption.
    destruct (N.lt_ge_cases x 100%N) as [H100|H100].
    + rewrite (pretty_N_small (x / 10)%N), (N.div_small x 100%N)
        by (try apply N.Div0.div_lt_upper_bound; lia).
      rewrite (N.mod_small (x / 10)%N 10%N) by (apply N.Div0.div_lt_upper_bound; lia).
      reflexivity.
    + rewrite (pretty_N_step (x / 10)%N) by (apply N.div_le_lower_bound; lia).
      rewrite N.Div0.div_div. change (10 * 10)%N with 100%N.
      rewrite append_assoc.
      set (a := pretty (x / 100)%N).
      set (b := String (pretty_N_char ((x / 10) mod 10)%N) "" +:+
                String (pretty_N_char (x mod 10)%N) "").
      pose proof (pretty_N_length (x / 100)%N) as Hlen. fold a in Hlen.
      cbv zeta. rewrite length_append.
      change (String.length b) with 2%nat.
      destruct (Nat.leb_spec (String.length a + 2) 2); [lia|].
      rewrite !length_append. change (String.length b) with 2%nat.
      replace (String.length a + 2 - 2)%nat with (String.length a) by lia.
      rewrite substring_app_l.
      change 2%nat with (String.length b) at 1. rewrite substring_app_r.
      reflexivity.
Qed.

(** ** The size format *)

Lemma scaled_make (v : Z) (k : nat) :
  (k <= 4)%nat -> scaled v k = Qmake v (Z.to_pos (1024 ^ Z.of_nat k)).
Proof.
  intros Hk.
  destruct k as [|[|[|[|[|k]]]]]; [..|lia];
    cbv [scaled Nat.iter nat_rect Qdiv Qmult Qinv Qnum Qden inject_Z];
    rewrite ?Z.mul_1_r; reflexivity.
Qed.

Lemma pow_1024_pos (k : nat) : (0 < 1024 ^ Z.of_nat k)%Z.
Proof. apply Z.pow_pos_nonneg; lia. Qed.

Lemma number_ge_scaled (v : Z) (k : nat) :
  (k <= 4)%nat ->
  number_ge (Fin (scaled v k)) 1024 = (1024 * 1024 ^ Z.of_nat k <=? v)%Z.
Proof.
  intros Hk. rewrite scaled_make by assumption.
  unfold number_ge, Qle_bool. cbn [Qnum Qden].
  rewrite Z.mul_1_r, Z2Pos.id by apply pow_1024_pos. reflexivity.
Qed.

(** One round of the loop. *)
Lemma scale_step (fuel : nat) (v : Z) (k : nat) :
  (k <= 4)%nat ->
  scale (S fuel) (Fin (scaled v k)) k =
  if (1024 * 1024 ^ Z.of_nat k <=? v)%Z && (k <? 4)%nat
  then scale fuel (Fin (scaled v (S k))) (S k)
  else (Fin (scaled v k), k).
Proof.
  intros Hk. cbn [scale]. rewrite number_ge_scaled by assumption. reflexivity.
Qed.

(** The loop ends within its fuel, at the unit [unit_index] names. *)
Lemma scale_unit_index (v : Z) :
  scale (length units) (Fin (inject_Z v)) 0
  = (Fin (scaled v (unit_index v)), unit_index v).
Proof.
  change (Fin (inject_Z v)) with (Fin (scaled v 0)). change (length units) with 5%nat.
  unfold unit_index.
  repeat match goal with
         | |- context [(v <? ?b)%Z] => destruct (Z.ltb_spec v b)
         end;
    repeat (rewrite scale_step by lia;
            match goal with
            | |- context [(?a <=? v)%Z] => destruct (Z.leb_spec a v); try lia
            end; cbn [andb Nat.ltb Nat.leb]);
    try reflexivity.
Qed.

(** [toFixed(2)] of a value between 0 and 10^21: the hundredths nearest
    to it, written with two decimal places. *)
Lemma toFixed2_fixed (n : Z) (d : positive) :
  (0 <= n < 10 ^ 21 * Zpos d)%Z ->
  toFixed2 (Fin (n # d)) = two_decimals ((200 * n + Zpos d) / (2 * Zpos d)).
Proof.
  intros [Hn Hlt]. unfold toFixed2.
  assert (Qle_bool 0 (n # d) = true) as ->.
  { unfold Qle_bool. cbn [Qnum Qden]. apply Z.leb_le. lia. }
  assert (Qabs (n # d) = n # d) as ->.
  { unfold Qabs. rewrite Z.abs_eq by assumption. reflexivity. }
  assert (Qle_bool (inject_Z (10 ^ 21)) (n # d) = false) as ->.
  { unfold Qle_bool. cbn [Qnum Qden inject_Z]. apply Z.leb_gt. lia. }
  assert (Qfloor ((n # d) * 100 + (1 # 2)) = (200 * n + Zpos d) / (2 * Zpos d))%Z as ->.
  { unfold Qfloor, Qplus, Qmult. cbn [Qnum Qden].
    rewrite Pos2Z.inj_mul, Pos2Z.inj_mul. f_equal; lia. }
  apply fixed_digits.
  apply Z.div_pos; lia.
Qed.

Lemma hundredths_scaled (v : Z) (k : nat) :
  (k <= 4)%nat -> (0 <= v < 10 ^ 21 * 1024 ^ Z.of_nat k)%Z ->
  toFixed2 (Fin (scaled v k)) = two_decimals (hundredths v k).
Proof.
  intros Hk Hv. rewrite scaled_make by assumption.
  pose proof (pow_1024_pos k).
  rewrite toFixed2_fixed by (rewrite Z2Pos.id; lia).
  unfold hundredths. rewrite Z2Pos.id by lia. reflexivity.
Qed.

(** The unit index is the least unit in which the value is below 1024. *)
Lemma unit_index_spec (v : Z) :
  let k := unit_index v in
  (k <= 4)%nat
  /\ ((k < 4)%nat -> (v < 1024 * 1024 ^ Z.of_nat k)%Z)
  /\ (forall j, (j < k)%nat -> (1024 * 1024 ^ Z.of_nat j <= v)%Z).
Proof.
  unfold unit_index.
  repeat match goal with
         | |- context [(v <? ?b)%Z] => destruct (Z.ltb_spec v b)
         end; cbv zeta; (split; [lia|split; [intros; lia|]]).
  all: intros j Hj;
    do 4 (destruct j as [|j]; [lia|]); lia.
Qed.

(** C2, as the code has it: an absent, empty or unparseable size gives
    "N/A"; a parsed byte count [v] from 0 up to (not including)
    10^21 * 1024^4 is divided by 1024 until it is below 1024 or the
    unit is TB, so the unit is the first of B, KB, MB, GB in which the
    value, before rounding, is below 1024, and TB otherwise; the text is
    that value rounded to the nearest hundredth, halves up, written
    with two decimal places, a space and the unit.  Below TB the
    displayed number is at most 1024.00.  "1536" gives "1.50 KB". *)
Theorem formatFileSize_scaled :
  formatFileSize undefined = "N/A"
  /\ formatFileSize null = "N/A"
  /\ formatFileSize (value "") = "N/A"
  /\ (forall s, parseInt s = NaN -> formatFileSize (value s) = "N/A")
  /\ (forall s v,
        s <> "" -> parseInt s = Fin (inject_Z v) ->
        (0 <= v < 10 ^ 21 * 1024 ^ 4)%Z ->
        let k := unit_index v in
        formatFileSize (value s)
        = two_decimals (hundredths v k) +:+ " " +:+ nth k units ""
        /\ ((k < 4)%nat ->
            (v < 1024 * 1024 ^ Z.of_nat k)%Z /\ (hundredths v k <= 102400)%Z)
        /\ (forall j, (j < k)%nat -> (1024 * 1024 ^ Z.of_nat j <= v)%Z))
  /\ formatFileSize (value "1536") = "1.50 KB".
Proof.
  repeat (split; [reflexivity|]).
  split; [intros s Hs; unfold formatFileSize; rewrite Hs;
          destruct (truthy_string s); reflexivity|].
  split; [|vm_compute; reflexivity].
  intros s v Hs Hparse Hv k.
  destruct (unit_index_spec v) as (Hk & Hbelow & Hleast). fold k in Hk, Hbelow, Hleast.
  pose proof (pow_1024_pos k) as Hpow.
  assert (v < 10 ^ 21 * 1024 ^ Z.of_nat k)%Z as Hfixed.
  { destruct (Nat.eq_dec k 4) as [->|Hne]; [exact (proj2 Hv)|].
    specialize (Hbelow ltac:(lia)). lia. }
  split; [|split; [|exact Hleast]].
  - unfold formatFileSize.
    assert (truthy_string s = true) as ->.
    { unfold truthy_string. destruct (String.eqb_spec s ""); [contradiction|reflexivity]. }
    rewrite Hparse. cbn [negb isNaN].
    rewrite scale_unit_index. fold k.
    rewrite hundredths_scaled by (auto; lia).
    do 2 f_equal. apply nth_indep. cbn. lia.
  - intros Hk4. specialize (Hbelow Hk4). split; [exact Hbelow|].
    unfold hundredths. apply Z.lt_succ_r.
    apply Z.div_lt_upper_bound; lia.
Qed.

(** C9, as the code has it: the text a handler returns after its [try]
    block succeeded contains, verbatim, the name of every file record
    the drive delivered to it (in answer to a list, get or create
    request).  It contains the id of these records for [listFiles],
    [searchFiles], [getFileMetadata], [createFolder] and [uploadFile];
    the text of [deleteFile] contains the validated id it was called
    with; [downloadFile] and [shareFile] render no id. *)
Theorem successful_text_shows (R : remote) (c : tool_call) (h tr : list event)
    (text : string) :
  run R (try_block c) h = (tr, inr text) ->
  (forall f s, In f (delivered tr) -> name f = value s -> contains s text)
  /\ (renders_ids c = true ->
      forall f s, In f (delivered tr) -> id f = value s -> contains s text)
  /\ (forall fileId, c = DeleteFile fileId -> contains (trim fileId) text).
Proof.
  intros Hrun. pose proof (try_block_shows R c h) as H.
  rewrite Hrun in H. exact H.
Qed.

(** ** validateRequired *)

Lemma rev_app_append (a b c : string) :
  String.rev_app (a +:+ b) c = String.rev_app b (String.rev_app a c).
Proof.
  revert c. induction a as [|x a IH]; intros c; [reflexivity|].
  rewrite append_cons. cbn [String.rev_app]. apply IH.
Qed.

Lemma rev_app_nil (a c : string) : String.rev_app a c = String.rev a +:+ c.
Proof.
  unfold String.rev. revert c. induction a as [|x a IH]; intros c; [reflexivity|].
  cbn [String.rev_app]. rewrite (IH (String x c)), (IH (String x "")).
  rewrite append_assoc. reflexivity.
Qed.

Lemma rev_append (a b : string) : String.rev (a +:+ b) = String.rev b +:+ String.rev a.
Proof. unfold String.rev at 1. rewrite rev_app_append, rev_app_nil. reflexivity. Qed.

(** Stripping removes a piece at the front. *)
Lemma strip_ws_rev_front (s r : string) :
  strip_ws_rev s = Some r -> exists a, s = a +:+ r.
Proof.
  unfold strip_ws_rev.
  destruct s as [|a [|b [|c r3]]];
    repeat match goal with
           | |- context [if ?b then _ else _] => destruct b
           end;
    intros [= <-];
    first [ by exists (String a "")
          | by exists (String a (String b ""))
          | by exists (String a (String b (String c ""))) ].
Qed.

Lemma strip_all_rev_front (fuel : nat) (s : string) :
  exists a, s = a +:+ strip_all strip_ws_rev fuel s.
Proof.
  revert s. induction fuel as [|fuel IH]; intros s; cbn [strip_all].
  - by exists "".
  - destruct (strip_ws_rev s) as [r|] eqn:Hs; [|by exists ""].
    apply strip_ws_rev_front in Hs as [a ->].
    destruct (IH r) as [b Hb]. exists (a +:+ b).
    rewrite append_assoc, <- Hb. reflexivity.
Qed.

(** [trimEnd] keeps a prefix. *)
Lemma trimEnd_prefix (s : string) : exists b, s = trimEnd s +:+ b.
Proof.
  unfold trimEnd.
  destruct (strip_all_rev_front (String.length s) (String.rev s)) as [a Ha].
  exists (String.rev a).
  rewrite <- rev_append, <- Ha. symmetry. apply rev_involutive.
Qed.

(** White space at the front of a prefix is white space at the front. *)
Lemma strip_ws_append (p b r : string) :
  strip_ws p = Some r -> strip_ws (p +:+ b) = Some (r +:+ b).
Proof.
  unfold strip_ws.
  destruct p as [|x [|y [|z p]]]; rewrite ?append_cons;
    repeat match goal with
           | |- context [if ?c then _ else _] => destruct c eqn:?
           end;
    intros [= <-]; try reflexivity.
Qed.

Lemma trim_front_stripped (s : string) : strip_ws (trim s) = None.
Proof.
  unfold trim. pose proof (trimStart_stripped s) as Hs.
  destruct (trimEnd_prefix (trimStart s)) as [b Hb].
  destruct (strip_ws (trimEnd (trimStart s))) as [r|] eqn:Hr; [|reflexivity].
  apply (strip_ws_append _ b) in Hr. rewrite <- Hb in Hr. congruence.
Qed.

Lemma trim_validated (s : string) : blank s = false -> validated (trim s).
Proof.
  intros Hs. unfold validated. split; [|split].
  - unfold blank in Hs. apply String.eqb_neq in Hs. exact Hs.
  - apply trim_front_stripped.
  - apply trimEnd_stripped.
Qed.

Lemma strip_all_none (strip : string -> option string) (fuel : nat) (s : string) :
  strip s = None -> strip_all strip fuel s = s.
Proof. intros Hs. destruct fuel; cbn [strip_all]; [reflexivity|]. rewrite Hs. reflexivity. Qed.

(** A validated string is left as it is by [trim]. *)
Lemma trim_of_validated (s : string) : validated s -> trim s = s.
Proof.
  intros (_ & Hfront & Hback). unfold trim, trimStart, trimEnd.
  rewrite (strip_all_none strip_ws _ s Hfront).
  rewrite (strip_all_none strip_ws_rev _ _ Hback). apply rev_involutive.
Qed.

Lemma validated_not_blank (s : string) : validated s -> blank s = false.
Proof.
  intros Hs. unfold blank. rewrite (trim_of_validated s Hs).
  apply String.eqb_neq. apply Hs.
Qed.

(** X1: what [validateRequired] returns is the argument without the
    white space around it; it is not empty, has no white space at either
    end, and validating it again returns it unchanged.  What it throws
    is the error naming the parameter, and it throws only for an absent
    argument or one that is empty or all white space. *)
Theorem validateRequired_result (R : remote) (v : nullable string) (name : string)
    (h : list event) :
  (forall out,
     (run R (validateRequired v name) h).2 = inr out ->
     validated out
     /\ (exists s, v = value s /\ out = trim s)
     /\ validateRequired (value out) name = Ret out)
  /\ (forall e,
        (run R (validateRequired v name) h).2 = inl e ->
        e = Error (name +:+ " is required")
        /\ (forall s, v = value s -> trim s = "")).
Proof.
  destruct v as [| |s]; cbn [validateRequired].
  1, 2: split; [intros out [=]|intros e [= <-]; split; [reflexivity|intros s [=]]].
  rewrite validate_condition.
  destruct (blank s) eqn:Hs; cbn [run snd]; split.
  - intros out [=].
  - intros e [= <-]. split; [reflexivity|].
    intros s' [= <-]. apply String.eqb_eq. exact Hs.
  - intros out [= <-]. pose proof (trim_validated s Hs) as Hv.
    split; [exact Hv|]. split; [eauto|].
    rewrite validate_condition, (validated_not_blank _ Hv), (trim_of_validated _ Hv).
    reflexivity.
  - intros e [=].
Qed.

(** ** Decimal numerals *)

Lemma digit_of_char (x : N) :
  (x < 10)%N -> digit 10 (pretty_N_char x) = Some (Z.of_N x).
Proof.
  intros Hx.
  assert (x = 0 \/ x = 1 \/ x = 2 \/ x = 3 \/ x = 4 \/ x = 5 \/ x = 6 \/ x = 7
          \/ x = 8 \/ x = 9)%N as H by lia.
  repeat (destruct H as [->|H]; [reflexivity|]). subst x. reflexivity.
Qed.

Lemma char_is_digit (x : N) : (48 <= code (pretty_N_char x) <= 57)%N.
Proof.
  unfold pretty_N_char.
  repeat (match goal with |- context [match ?p with _ => _ end] => destruct p end);
    cbn; lia.
Qed.

Lemma all_digits_append (a b : string) :
  all_digits a -> all_digits b -> all_digits (a +:+ b).
Proof.
  induction a as [|x a IH]; intros Ha Hb; [exact Hb|].
  rewrite append_cons. destruct Ha as [Hx Ha]. split; auto.
Qed.

Lemma pretty_all_digits (x : N) : all_digits (pretty x).
Proof.
  induction (N.lt_wf_0 x) as [x _ IH].
  destruct (N.lt_ge_cases x 10%N) as [H|H].
  - rewrite pretty_N_small by assumption. split; [apply char_is_digit|exact I].
  - rewrite pretty_N_step by assumption. apply all_digits_append.
    + apply IH. apply N.div_lt; lia.
    + split; [apply char_is_digit|exact I].
Qed.

(** Reading the digits of [x] gives [x] back. *)
Lemma digits_value_pretty (x : N) :
  forall (r : string) (seen : bool),
    digits_value 10 (pretty x +:+ r) 0 seen = digits_value 10 r (Z.of_N x) true.
Proof.
  induction (N.lt_wf_0 x) as [x _ IH]. intros r seen.
  destruct (N.lt_ge_cases x 10%N) as [H|H].
  - rewrite pretty_N_small by assumption. rewrite append_cons.
    cbn [digits_value]. rewrite digit_of_char by assumption. reflexivity.
  - rewrite pretty_N_step, append_assoc, append_cons by assumption.
    rewrite IH by (apply N.div_lt; lia).
    cbn [digits_value]. rewrite digit_of_char by (apply N.mod_lt; lia).
    change (String.append "" r) with r. f_equal.
    rewrite (N.div_mod x 10) at 3 by lia. lia.
Qed.

Lemma strip_ws_digit (c : ascii) (r : string) :
  (48 <= code c <= 57)%N -> strip_ws (String c r) = None.
Proof.
  intros Hc. unfold strip_ws, is_ws1, is_ws2, is_ws3.
  repeat match goal with
         | |- context [(?a <=? ?b)%N] => destruct (N.leb_spec a b); try lia
         | |- context [(code c =? ?b)%N] => destruct (N.eqb_spec (code c) b); try lia
         end; cbn [andb orb];
    destruct r as [|b [|d r]]; reflexivity.
Qed.

(** [parseInt] on the decimal numeral of [n]. *)
Lemma parseInt_Z_digits (n : Z) : (0 <= n)%Z -> parseInt_Z (digits n) = Some n.
Proof.
  intros Hn. unfold digits. set (x := Z.to_N n).
  pose proof (pretty_all_digits x) as Hall.
  pose proof (pretty_N_length x) as Hlen.
  pose proof (digits_value_pretty x "" false) as Hval.
  rewrite append_nil_r in Hval.
  destruct (pretty x) as [|c r] eqn:Hp; [cbn in Hlen; lia|].
  destruct Hall as [Hc Hr].
  unfold parseInt_Z, trimStart.
  rewrite (strip_all_none strip_ws _ _ (strip_ws_digit c r Hc)).
  destruct (N.eqb_spec (code c) 45); [lia|].
  destruct (N.eqb_spec (code c) 43); [lia|].
  assert (String.prefix "0x" (String c r) || String.prefix "0X" (String c r) = false) as ->.
  { cbn [String.prefix]. destruct (Ascii.ascii_dec "0" c); [|reflexivity].
    destruct r as [|d r]; [reflexivity|]. destruct Hr as [Hd _].
    cbn [String.prefix].
    destruct (Ascii.ascii_dec "x" d) as [<-|_]; [cbn in Hd; lia|].
    destruct (Ascii.ascii_dec "X" d) as [<-|_]; [cbn in Hd; lia|]. reflexivity. }
  rewrite Hval. cbn [digits_value]. f_equal. subst x. lia.
Qed.

Lemma digits_not_empty (n : Z) : digits n <> "".
Proof.
  unfold digits. pose proof (pretty_N_length (Z.to_N n)) as H.
  destruct (pretty (Z.to_N n)); [cbn in H; lia|discriminate].
Qed.

(** X2: for a byte count [n] below 2^53 written in decimal, as the
    Drive API sends it, [formatFileSize] divides by 1024 up to the
    first unit in which the value is below 1024 (TB at most) and prints
    the value in that unit rounded to the nearest hundredth, with two
    decimal places. *)
Theorem formatFileSize_numeral (n : Z) :
  (0 <= n < 2 ^ 53)%Z ->
  formatFileSize (value (digits n))
  = two_decimals (hundredths n (unit_index n)) +:+ " " +:+ nth (unit_index n) units "".
Proof.
  intros Hn. unfold formatFileSize.
  assert (truthy_string (digits n) = true) as ->.
  { unfold truthy_string. destruct (String.eqb_spec (digits n) "") as [H|_]; [|reflexivity].
    destruct (digits_not_empty n H). }
  unfold parseInt. rewrite parseInt_Z_digits by lia.
  destruct (double_of_Z_cases n) as [[_ ->]|[Hbig _]]; [|lia].
  cbn [negb isNaN]. rewrite scale_unit_index.
  destruct (unit_index_spec n) as (Hk & Hbelow & _).
  pose proof (pow_1024_pos (unit_index n)) as Hpow.
  rewrite hundredths_scaled.
  - do 2 f_equal. apply nth_indep. cbn. lia.
  - exact Hk.
  - split; [lia|].
    destruct (Nat.eq_dec (unit_index n) 4) as [->|Hne].
    + change (2 ^ 53)%Z with 9007199254740992%Z in Hn.
      change (10 ^ 21 * 1024 ^ Z.of_nat 4)%Z
        with 1099511627776000000000000000000000%Z. lia.
    + specialize (Hbelow ltac:(lia)). lia.
Qed.

(** X3: a page size written in decimal is sent as it is when it lies
    between 1 and 100; a larger one is sent as 100, and zero as 10. *)
Theorem pageSize_numeral (n : Z) :
  (0 <= n)%Z ->
  pageSizeNum (digits n)
  = Fin (inject_Z (if (n =? 0)%Z then 10 else Z.min n 100)).
Proof.
  intros Hn. rewrite pageSizeNum_effective. unfold effective_pageSize.
  rewrite parseInt_Z_digits by assumption.
  destruct n as [|p|p]; [reflexivity| |lia].
  cbn [Z.eqb]. unfold clamp. do 2 f_equal. lia.
Qed.

Lemma scale_index_bound (fuel : nat) :
  forall (x : number) (i : nat),
    (i <= length units - 1)%nat -> ((scale fuel x i).2 <= length units - 1)%nat.
Proof.
  induction fuel as [|fuel IH]; intros x i Hi; cbn [scale].
  - destruct (_ && _); exact Hi.
  - destruct (number_ge x 1024); cbn [andb]; [|exact Hi].
    destruct (Nat.ltb_spec i (length units - 1)); [|exact Hi].
    apply IH. lia.
Qed.

(** X4: the text of [formatFileSize] is "N/A" or a number followed by a
    space and one of the five units: the loop never leaves the table of
    units. *)
Theorem formatFileSize_has_unit (bytes : nullable string) :
  formatFileSize bytes = "N/A"
  \/ exists x unit,
       In unit units /\ formatFileSize bytes = toFixed2 x +:+ " " +:+ unit.
Proof.
  unfold formatFileSize. destruct bytes as [| |b]; auto.
  destruct (negb (truthy_string b)); auto.
  destruct (isNaN (parseInt b)); auto.
  pose proof (scale_index_bound (length units) (parseInt b) 0 ltac:(cbn; lia)) as H.
  destruct (scale (length units) (parseInt b) 0) as [x k]. cbn [snd] in H.
  right. exists x, (nth k units "undefined"). split; [|reflexivity].
  apply nth_In. cbn in *. lia.
Qed.

(** ** Every handler, every run *)

Lemma folder_condition (s : string) :
  truthy_string s && negb (String.eqb (trim s) "") = negb (blank s).
Proof.
  unfold blank, truthy_string. destruct (String.eqb_spec s "") as [->|]; reflexivity.
Qed.

Lemma getFileMetadata_try_text (fileId : string) :
  getFileMetadata_try fileId
  = (validFileId ← validateRequired (value fileId) "fileId";
     drive ← getDriveClient;
     file ← send drive (files_get validFileId "*");
     Ret (metadata_text file)).
Proof. reflexivity. Qed.

(** All runs of a handler, one goal per way the run can go. *)
Ltac handler_cases c :=
  rewrite handler_shape, run_guarded;
  destruct c; cbn [try_block info_line error_label];
  rewrite ?getFileMetadata_try_text;
  unfold listFiles_try, searchFiles_try, createFolder_try,
    uploadFile_try, downloadFile_try, shareFile_try, deleteFile_try;
  rewrite ?folder_condition;
  run_all.

Lemma validRole_valid (role : string) : In (validRole role) validRoles.
Proof.
  unfold validRole. destruct (existsb (String.eqb role) validRoles) eqn:H.
  - apply existsb_exists in H as (x & Hx & ->%String.eqb_eq). exact Hx.
  - cbn. auto.
Qed.

Lemma truthy_not_empty (s : string) : truthy_string s = true -> s <> "".
Proof. unfold truthy_string. destruct (String.eqb_spec s ""); [discriminate|auto]. Qed.

Ltac wf_solve :=
  repeat match goal with
         | |- _ /\ _ => split
         | |- True => exact I
         | |- validated (trim _) => apply trim_validated; assumption
         | |- In (validRole _) _ => apply validRole_valid
         | |- _ <> "" => first [apply truthy_not_empty; assumption | discriminate]
         | |- _ = _ => reflexivity
         | |- exists _, [_] = [_] /\ _ => eexists; split; [reflexivity|]
         | |- _ \/ _ =>
             first
               [ left; reflexivity
               | right; left; eexists; split;
                 [apply trim_validated; eassumption|reflexivity]
               | right; right; eexists; split;
                 [apply trim_validated; eassumption|reflexivity] ]
         end.

(** Every request of every handler is well formed. *)
Lemma requests_well_formed (R : remote) (c : tool_call) (h : list event) :
  Forall well_formed (requests (run R (handler c) h).1).
Proof.
  handler_cases c; cbn [fst requests omap app].
  all: repeat match goal with
              | |- context [negb (blank ?s)] => destruct (blank s) eqn:?
              | |- context [if truthy_string ?s then _ else _] =>
                  destruct (truthy_string s) eqn:?
              end; cbn [negb].
  all: repeat first
         [ apply List.Forall_nil
         | apply List.Forall_cons;
           [unfold well_formed; cbn [names_valid_file grants_valid_role
              creates_valid_item lists_untrashed meta_name meta_parents
              meta_mimeType media_body media_mimeType]; wf_solve|] ].
Qed.

(** X5: every request that names a file, in every run of every handler,
    names it by a validated id: not empty, no white space around it. *)
Theorem file_ids_validated (R : remote) (c : tool_call) (h : list event) :
  Forall names_valid_file (requests (run R (handler c) h).1).
Proof.
  eapply List.Forall_impl; [|apply requests_well_formed].
  intros r Hr. apply Hr.
Qed.

(** X6: every permission any handler creates is for a user, in one of
    the roles reader, writer, commenter, with a validated address; a
    role that is one of the three is the role [shareFile] grants. *)
Theorem permissions_valid (R : remote) (c : tool_call) (h : list event) :
  Forall grants_valid_role (requests (run R (handler c) h).1)
  /\ (forall fileId email role,
        c = ShareFile fileId email role -> In role validRoles ->
        Forall (fun r => match r with
                         | permissions_create _ _ granted _ _ => granted = role
                         | _ => True
                         end) (requests (run R (handler c) h).1)).
Proof.
  split.
  - eapply List.Forall_impl; [|apply requests_well_formed]. intros r Hr. apply Hr.
  - intros fileId email role -> Hrole.
    assert (validRole role = role) as Hvalid.
    { unfold validRole. destruct (existsb (String.eqb role) validRoles) eqn:H; [reflexivity|].
      cbn in Hrole. cbn in H.
      repeat (destruct Hrole as [<-|Hrole]; [rewrite String.eqb_refl in H; cbn in H;
        rewrite ?orb_true_r in H; discriminate|]).
      destruct Hrole. }
    rewrite handler_shape, run_guarded. cbn [try_block]. unfold shareFile_try.
    rewrite Hvalid. run_all; cbn [fst requests omap app].
    all: repeat first [apply List.Forall_nil | apply List.Forall_cons; [auto|]].
Qed.



(** X9: a run of a handler changes the drive at most once, and not at
    all for the four tools that read; no handler issues the permanent
    delete, and the only update sets the trashed flag. *)
Theorem mutations_bounded (R : remote) (c : tool_call) (h : list event) :
  (length (List.filter mutating (requests (run R (handler c) h).1))
   <= if read_only c then 0 else 1)%nat
  /\ Forall erases_nothing (requests (run R (handler c) h).1).
Proof.
  handler_cases c;
    cbn [fst requests omap list_omap app List.filter mutating length read_only].
  all: split; [lia|].
  all: repeat first [apply List.Forall_nil | apply List.Forall_cons; [cbn; auto|]].
Qed.

(** X10: a run of a handler issues at most two requests and never
    retries: once a request is rejected no further request follows, and
    the handler returns the formatted error of that rejection. *)
Theorem no_retry (R : remote) (c : tool_call) (h : list event) :
  (length (requests (run R (handler c) h).1) <= 2)%nat
  /\ (forall i ev e,
        (run R (handler c) h).1 !! i = Some ev -> rejection ev = Some e ->
        requests (drop (S i) (run R (handler c) h).1) = []
        /\ (run R (handler c) h).2 = inr (formatError e)).
Proof.
  handler_cases c; cbn [fst snd requests omap list_omap app length].
  all: split; [lia|].
  all: intros i ev e Hi Hrej.
  all: repeat (destruct i as [|i];
               [ cbn in Hi; injection Hi as <-; cbn in Hrej;
                 first [discriminate Hrej | injection Hrej as <-; split; reflexivity]
               | ]).
  all: cbn in Hi; discriminate Hi.
Qed.

Lemma credentials_present :
  credentials_missing = false ->
  CLIENT_ID <> "" /\ CLIENT_SECRET <> "" /\ REFRESH_TOKEN <> "".
Proof.
  intros H. pose proof credentials_missing_iff as Hiff.
  rewrite H in Hiff. repeat split; intros Heq; destruct Hiff as [_ Hiff];
    discriminate Hiff; auto.
Qed.

(** X11: a handler that issues a request has first constructed the
    client, once, from three secrets that are not empty; nothing is
    requested before the client exists. *)
Theorem client_before_requests (R : remote) (c : tool_call) (h : list event) :
  requests (run R (handler c) h).1 = []
  \/ (CLIENT_ID <> "" /\ CLIENT_SECRET <> "" /\ REFRESH_TOKEN <> ""
      /\ exists pre post,
           (run R (handler c) h).1
           = pre ++ NewClient CLIENT_ID CLIENT_SECRET REFRESH_TOKEN :: post
           /\ requests pre = []
           /\ existsb is_NewClient pre = false
           /\ existsb is_NewClient post = false).
Proof.
  handler_cases c; cbn [fst requests omap app].
  all: first
         [ left; reflexivity
         | right;
           match goal with
           | H : credentials_missing = false |- _ =>
               destruct (credentials_present H) as (? & ? & ?)
           end;
           do 3 (split; [assumption|]);
           eexists [_], _; split; [reflexivity|]; repeat split ].
Qed.

(** ** The dispatcher and the registry *)

Lemma or_default_given (args : arguments) (key d : string) :
  or_default (arg args key) d
  = if truthy_string (given args key) then given args key else d.
Proof.
  unfold given. destruct (arg args key) as [| |s]; cbn [or_default]; try reflexivity.
  destruct (truthy_string s) eqn:Hs; [rewrite Hs|]; reflexivity.
Qed.

Lemma given_insert_empty (m : gmap string string) (k key : string) :
  given (Some (<[k:=""]> m)) key = given (Some (delete k m)) key.
Proof.
  unfold given, arg. destruct (decide (k = key)) as [->|Hne].
  - rewrite lookup_insert_eq, lookup_delete_eq. reflexivity.
  - rewrite lookup_insert_ne, lookup_delete_ne by assumption. reflexivity.
Qed.

Lemma decode_given (tool : Tool) (a1 a2 : arguments) :
  In tool TOOLS ->
  (forall k, In k (map fst (properties tool)) -> given a1 k = given a2 k) ->
  decode (tool_name tool) a1 = decode (tool_name tool) a2.
Proof.
  intros Htool Hsame. cbn [TOOLS In] in Htool.
  repeat (destruct Htool as [<-|Htool];
          [ cbn [tool_name properties map fst In] in *;
            unfold decode; cbn [String.eqb Ascii.eqb Bool.eqb];
            rewrite !or_default_given; rewrite !Hsame by auto 10; reflexivity |]).
  destruct Htool.
Qed.

(** X12: a call of a registered tool depends on its arguments only
    through the properties the registry declares for the tool, and only
    through their values with an absent argument counting as the empty
    string: arguments the tool does not declare are ignored, and an
    argument given as the empty string is treated as absent. *)
Theorem arguments_declared_only (tool : Tool) (a1 a2 : arguments) :
  In tool TOOLS ->
  (forall k, In k (map fst (properties tool)) -> given a1 k = given a2 k) ->
  callTool (tool_name tool) a1 = callTool (tool_name tool) a2.
Proof.
  intros Htool Hsame. rewrite !callTool_decode.
  rewrite (decode_given tool a1 a2 Htool Hsame). reflexivity.
Qed.

(** X13: the dispatcher answers a call with one text content in a
    result whose [isError] field is absent exactly for the names the
    registry lists, and they are listed once; for every other name it
    does nothing but log the error and return the flagged error result. *)
Theorem advertised_tools_dispatch (R : remote) (name : string) (args : arguments)
    (h : list event) :
  NoDup (map tool_name TOOLS)
  /\ (In name (map tool_name TOOLS) ->
      exists text,
        (run R (callTool name args) h).2
        = inr (mkCallToolResult [mkTextContent "text" text] None))
  /\ (~ In name (map tool_name TOOLS) ->
      run R (callTool name args) h
      = ([Log ERROR ("Error executing tool " +:+ name +:+ ":")
            (Some (Error ("Unknown tool: " +:+ name)))],
         inr (mkCallToolResult
                [mkTextContent "text" ("❌ Error: Unknown tool: " +:+ name)] (Some true)))).
Proof.
  split; [|split].
  - apply (bool_decide_unpack _). vm_compute. exact I.
  - intros Hin. apply decode_registered with (args := args) in Hin as [c Hc].
    rewrite run_callTool, Hc. cbv zeta.
    destruct (run R (try_block c) _) as [tr [e|text]]; eauto.
  - intros Hout. rewrite run_callTool.
    destruct (decode name args) as [c|] eqn:Hc; [|reflexivity].
    destruct Hout. apply (decode_registered name args). eauto.
Qed.

(** ** shareFile, downloadFile, the listings *)

(** X14: [shareFile] is not atomic.  When the permission was created
    and the fetch of the file's name is then rejected, the handler
    returns the formatted error of that rejection: an error text does
    not mean that nothing was shared. *)
Theorem shareFile_error_after_sharing (R : remote) (fileId email role : string)
    (h : list event) (e : thrown) :
  In (Request (files_get (trim fileId) "name, webViewLink") (inl e))
     (run R (shareFile fileId email role) h).1 ->
  (run R (shareFile fileId email role) h).2 = inr (formatError e)
  /\ exists p,
       In (Request (permissions_create (trim fileId) "user" (validRole role)
                      (trim email) "id") (inr p))
          (run R (shareFile fileId email role) h).1.
Proof.
  change (shareFile fileId email role)
    with (guarded ("Sharing file " +:+ fileId +:+ " with " +:+ email) "Error in shareFile:"
            (shareFile_try fileId email role)).
  rewrite run_guarded. unfold shareFile_try.
  run_all; cbn [fst snd In app].
  all: intros Hin;
    repeat (destruct Hin as [Hin|Hin]; try discriminate Hin); try contradiction.
  all: apply Request_inj in Hin; try discriminate Hin.
  all: injection Hin as <-; split; [reflexivity|]; eauto 10.
Qed.

Lemma ends_base (s : string) : exists header, s = header +:+ s.
Proof. by exists "". Qed.

Lemma ends_step (a t s : string) :
  (exists header, t = header +:+ s) -> exists header, a +:+ t = header +:+ s.
Proof. intros [x ->]. exists (a +:+ x). rewrite append_assoc. reflexivity. Qed.

(** X15: the text of a successful [downloadFile] ends with the line
    "Content:", an empty line and the content the drive delivered, byte
    for byte, whether it was exported or downloaded. *)
Theorem downloadFile_content_verbatim (R : remote) (fileId : string) (h : list event)
    (ev : event) (data : string) :
  In ev (run R (downloadFile fileId) h).1 ->
  delivered_content ev = Some data ->
  exists header,
    (run R (downloadFile fileId) h).2
    = inr (header +:+ "Content:" +:+ LF +:+ LF +:+ data).
Proof.
  change (downloadFile fileId)
    with (guarded ("Downloading file: " +:+ fileId) "Error in downloadFile:"
            (downloadFile_try fileId)).
  rewrite run_guarded. unfold downloadFile_try. run_all; cbn [fst snd In app].
  all: intros Hin Hd;
    repeat (destruct Hin as [<-|Hin]; [cbn in Hd; try discriminate Hd|]);
    try contradiction.
  all: injection Hd as <-.
  all: match goal with
       | |- exists header, inr ?t = inr (header +:+ ?s) =>
           assert (exists header, t = header +:+ s) as [x ->]
             by (repeat first [apply ends_base | apply ends_step]);
           exists x; reflexivity
       end.
Qed.

Lemma render_file_prefix (result : string) (index : nat) (file : File) :
  exists entry, render_file result index file = result +:+ entry.
Proof.
  unfold render_file. destruct (truthy (webViewLink file));
    eexists; rewrite !append_assoc; reflexivity.
Qed.

Lemma render_files_prefix (files : list File) :
  forall (result : string) (index : nat),
    exists body, render_files result index files = result +:+ body.
Proof.
  induction files as [|file rest IH]; intros result index; cbn [render_files].
  - exists "". symmetry. apply append_nil_r.
  - destruct (render_file_prefix result index file) as [entry ->].
    destruct (IH (result +:+ entry) (S index)) as [body ->].
    exists (entry +:+ body). apply append_assoc.
Qed.

(** X16: when the drive delivers no files (none, null or an empty
    list), [listFiles] returns the one line "No files found" and
    [searchFiles] the one line naming the trimmed query; when it
    delivers files, the text starts with the line counting them. *)
Theorem listing_texts (R : remote) (h : list event) (ev : event)
    (files : nullable (list File)) :
  listed ev = Some files ->
  (forall folderId pageSize,
     In ev (run R (listFiles folderId pageSize) h).1 ->
     (no_files files ->
      (run R (listFiles folderId pageSize) h).2 = inr "📁 No files found")
     /\ (forall l, files = value l -> l <> [] ->
         exists body,
           (run R (listFiles folderId pageSize) h).2
           = inr (("📁 Found " +:+ pretty (length l) +:+ " file(s):" +:+ LF +:+ LF)
                  +:+ body)))
  /\ (forall query pageSize,
        In ev (run R (searchFiles query pageSize) h).1 ->
        (no_files files ->
         (run R (searchFiles query pageSize) h).2
         = inr ("🔍 No files found matching " +:+ DQUOTE +:+ trim query +:+ DQUOTE))
        /\ (forall l, files = value l -> l <> [] ->
            exists body,
              (run R (searchFiles query pageSize) h).2
              = inr (("🔍 Found " +:+ pretty (length l) +:+ " file(s) matching "
                      +:+ DQUOTE +:+ trim query +:+ DQUOTE +:+ ":" +:+ LF +:+ LF)
                     +:+ body))).
Proof.
  intros Hl. split.
  - intros folderId pageSize.
    change (listFiles folderId pageSize)
      with (guarded (info_line (ListFiles folderId pageSize)) "Error in listFiles:"
              (listFiles_try folderId pageSize)).
    rewrite run_guarded. unfold listFiles_try. run_all; cbn [fst snd In app].
    all: intros Hin;
      repeat (destruct Hin as [<-|Hin]; [cbn in Hl; try discriminate Hl|]);
      try contradiction.
    all: injection Hl as <-; cbn [no_files].
    all: split; [first [reflexivity | intros []]|].
    all: intros l0 [= <-] Hne; try congruence.
    all: match goal with
         | |- exists body, inr (render_files ?r ?i ?l) = _ =>
             destruct (render_files_prefix l r i) as [body ->];
             exists body; reflexivity
         end.
  - intros query pageSize.
    change (searchFiles query pageSize)
      with (guarded (info_line (SearchFiles query pageSize)) "Error in searchFiles:"
              (searchFiles_try query pageSize)).
    rewrite run_guarded. unfold searchFiles_try. run_all; cbn [fst snd In app].
    all: intros Hin;
      repeat (destruct Hin as [<-|Hin]; [cbn in Hl; try discriminate Hl|]);
      try contradiction.
    all: injection Hl as <-; cbn [no_files].
    all: split; [first [reflexivity | intros []]|].
    all: intros l0 [= <-] Hne; try congruence.
    all: match goal with
         | |- exists body, inr (render_files ?r ?i ?l) = _ =>
             destruct (render_files_prefix l r i) as [body ->];
             exists body; reflexivity
         end.
Qed.

Lemma prefix_append_long (s : string) :
  forall a x : string,
    (String.length s <= String.length a)%nat ->
    String.prefix s (a +:+ x) = String.prefix s a.
Proof.
  induction s as [|c s IH]; intros a x Hlen.
  - destruct a; [destruct x|]; reflexivity.
  - destruct a as [|d a]; cbn [String.length] in Hlen; [lia|].
    rewrite append_cons. cbn [String.prefix].
    destruct (Ascii.ascii_dec c d); [apply IH; lia|reflexivity].
Qed.

Lemma starts_refl (s : string) : exists rest, s = s +:+ rest.
Proof. exists "". symmetry. apply append_nil_r. Qed.

Lemma starts_app (s a b : string) :
  (exists rest, a = s +:+ rest) -> exists rest, a +:+ b = s +:+ rest.
Proof. intros [r ->]. exists (r +:+ b). apply append_assoc. Qed.

Lemma metadata_text_header (file : File) :
  exists rest, metadata_text file = "📄 File Metadata:" +:+ rest.
Proof.
  unfold metadata_text. cbv zeta.
  repeat match goal with
         | |- context [match ?x with _ => _ end] => destruct x
         end.
  all: repeat first [apply starts_refl | apply starts_app].
Qed.

Ltac unmarked :=
  unfold error_marker;
  first
    [ reflexivity
    | rewrite prefix_append_long by (vm_compute; lia); reflexivity ].

Lemma try_block_unmarked (R : remote) (c : tool_call) (h : list event) :
  match run R (try_block c) h with
  | (_, inr text) => String.prefix error_marker text = false
  | _ => True
  end.
Proof.
  destruct c; cbn [try_block];
    rewrite ?getFileMetadata_try_text;
    unfold listFiles_try, searchFiles_try, createFolder_try,
      uploadFile_try, downloadFile_try, shareFile_try, deleteFile_try;
    rewrite ?folder_condition;
    run_all; try exact I.
  all: cbv zeta.
  all: repeat match goal with
         | |- context [render_files ?r ?i ?l] =>
             let body := fresh "body" in
             destruct (render_files_prefix l r i) as [body ->]
         | |- context [metadata_text ?f] =>
             let rest := fresh "rest" in
             destruct (metadata_text_header f) as [rest ->]
         end.
  all: rewrite ?append_assoc.
  all: unmarked.
Qed.

(** X17: the text a handler returns starts with the error marker
    exactly when its try block threw, so a failure can be told from a
    success by the text alone. *)
Theorem error_marker_iff_thrown (R : remote) (c : tool_call) (h : list event) :
  exists text,
    (run R (handler c) h).2 = inr text
    /\ (String.prefix error_marker text = true
        <-> exists e,
              (run R (try_block c) (h ++ [Log INFO (info_line c) None])).2 = inl e).
Proof.
  rewrite handler_shape, run_guarded.
  pose proof (try_block_unmarked R c (h ++ [Log INFO (info_line c) None])) as Hu.
  destruct (run R (try_block c) _) as [tr [e|t]]; cbn [fst snd].
  - exists (formatError e). split; [reflexivity|]. split; [eauto|]. intros _.
    apply prefix_iff. destruct e; eexists; reflexivity.
  - exists t. split; [reflexivity|]. rewrite Hu.
    split; [discriminate|]. intros [e He]. discriminate He.
Qed.

(** X18: the arguments a handler validates are the ones the registry
    marks as required, in that order, and validation comes before
    anything else.  A call of a registered tool whose first blank
    required argument is [g] only logs and returns the error text
    "[g] is required": no client is made and nothing is requested.  When
    no required argument is blank, the next thing the call does is to
    make the client, or to fail for the missing credentials. *)
Theorem required_arguments_first (R : remote) (tool : Tool) (args : arguments)
    (h : list event) :
  In tool TOOLS ->
  exists c,
    decode (tool_name tool) args = Some c
    /\ match find (fun g => blank (given args g)) (required tool) with
       | Some g =>
           run R (callTool (tool_name tool) args) h
           = ([Log INFO (info_line c) None;
               Log ERROR (error_label c) (Some (Error (g +:+ " is required")))],
              inr (text_result (formatError (Error (g +:+ " is required")))))
       | None =>
           if credentials_missing
           then run R (callTool (tool_name tool) args) h
                = ([Log INFO (info_line c) None;
                    Log ERROR (error_label c) (Some (Error missing_credentials))],
                   inr (text_result (formatError (Error missing_credentials))))
           else exists tr,
                  (run R (callTool (tool_name tool) args) h).1
                  = Log INFO (info_line c) None
                    :: NewClient CLIENT_ID CLIENT_SECRET REFRESH_TOKEN :: tr
       end.
Proof.
  intros Htool. cbn [TOOLS In] in Htool.
  repeat (destruct Htool as [<-|Htool];
          [ cbn [tool_name required find];
            rewrite run_callTool;
            unfold decode; cbn [String.eqb Ascii.eqb Bool.eqb];
            eexists; split; [reflexivity|];
            cbn beta iota zeta;
            cbn [try_block info_line error_label];
            rewrite ?getFileMetadata_try_text;
            unfold listFiles_try, searchFiles_try, createFolder_try,
              uploadFile_try, downloadFile_try, shareFile_try, deleteFile_try;
            rewrite ?folder_condition; unfold given;
            run_all; try discriminate;
            first [reflexivity | cbn [fst]; eexists; reflexivity] |]).
  destruct Htool.
Qed.

End Server.

(** ** The statements at concrete calls *)

(** C1 as stated fails.  The query is empty: the [try] block of
    [searchFiles] throws the validation error, and the result of the
    call carries the formatted error with no [isError] field; the same
    holds when the drive rejects the request of [list_files]. *)
Lemma handler_error_not_flagged :
  run offline (searchFiles_try sample_env sample_locale "" "5")
    [Log INFO "Searching files with query: " None]
  = ([], inl (Error "query is required"))
  /\ (run offline (callTool sample_env sample_locale "search_files" empty_query_args) []).2
     = inr (mkCallToolResult [mkTextContent "text" "❌ Error: query is required"] None)
  /\ (run offline (callTool sample_env sample_locale "list_files" None) []).2
     = inr (mkCallToolResult [mkTextContent "text" "❌ Error: network unreachable"] None).
Proof. vm_compute. repeat split. Qed.

Lemma handler_errors_become_text_witness :
  (run offline (callTool sample_env sample_locale "search_files" empty_query_args) []).2
  = inr (mkCallToolResult
           [mkTextContent "text" (formatError (Error "query is required"))] None).
Proof.
  apply (proj1 (proj2 (handler_errors_become_text sample_env sample_locale offline
                         "search_files" empty_query_args []))
           (SearchFiles "" "5") [] (Error "query is required")).
  - vm_compute. reflexivity.
  - vm_compute. reflexivity.
Defined.

(** C2 as stated fails.  One byte below a mebibyte is scaled to KB and
    displayed as 1024.00, where the specification's rule (a displayed
    magnitude below 1024) asks for 1.00 MB; a negative count is left in
    bytes whatever its magnitude; from 10^21 TB on the number is printed
    in exponent notation, with no decimal places. *)
Lemma formatFileSize_displays_1024 :
  formatFileSize (value "1048575") = "1024.00 KB"
  /\ formatByteSize_claimed 1048575 = "1.00 MB"
  /\ formatFileSize (value "-2048") = "-2048.00 B"
  /\ formatFileSize (value "1099511627776000000000000000000000") = "1e+21 TB".
Proof. vm_compute. repeat split. Qed.

Lemma formatFileSize_scaled_witness :
  formatFileSize (value "1048575")
  = two_decimals (hundredths 1048575 1) +:+ " " +:+ "KB".
Proof.
  apply (proj1 (proj2 (proj2 (proj2 (proj2 formatFileSize_scaled))))
           "1048575" 1048575%Z).
  - discriminate.
  - vm_compute. reflexivity.
  - vm_compute. split; [discriminate|reflexivity].
Defined.

(** C3 at a spreadsheet: the metadata, then a CSV export. *)
Lemma downloadFile_spreadsheet_witness :
  requests (run (drive_with (sample_file spreadsheet_mimeType) "a,b")
              (downloadFile sample_env "file-0042") []).1
  = [files_get "file-0042" "name, mimeType, size"; files_export "file-0042" "text/csv"].
Proof.
  apply (downloadFile_export_or_media sample_env
           (drive_with (sample_file spreadsheet_mimeType) "a,b") "file-0042" []
           (sample_file spreadsheet_mimeType)).
  - vm_compute. auto.
  - reflexivity.
Defined.

(** C4 at the role admin. *)
Lemma shareFile_admin_witness :
  (run sharing_drive (shareFile sample_env "file-0042" "ann@example.com" "admin") []).2
  = inr ("✅ File shared successfully:" +:+ LF +:+
         "File: report.txt" +:+ LF +:+
         "Shared with: ann@example.com" +:+ LF +:+
         "Permission: reader" +:+ LF +:+
         "Link: N/A").
Proof.
  apply (proj2 (proj2 (proj2 (shareFile_invalid_role_reader sample_env sharing_drive
                                "file-0042" "ann@example.com" "admin" [] eq_refl)))
           (mkFile undefined (value "report.txt") undefined undefined undefined
                   undefined undefined undefined undefined undefined undefined)).
  vm_compute. auto.
Defined.

(** C5 at work: on a drive that answers, [deleteFile] reads the name
    and sets the trashed flag. *)
Example deleteFile_requests :
  requests (run (drive_with (sample_file "text/plain") "") (deleteFile sample_env "file-0042") []).1
  = [files_get "file-0042" "name"; files_update "file-0042" true].
Proof. vm_compute. reflexivity. Qed.

(** C6 at the scenario of the specification. *)
Lemma search_files_empty_query_witness :
  run offline (callTool sample_env sample_locale "search_files" empty_query_args) []
  = ([Log INFO "Searching files with query: " None;
      Log ERROR "Error in searchFiles:" (Some (Error "query is required"))],
     inr (text_result "❌ Error: query is required")).
Proof.
  apply (search_files_empty_query sample_env sample_locale offline empty_query_args []).
  vm_compute. reflexivity.
Defined.

(** C7 as stated fails: the string "0" parses to the number 0, whose
    clamp is 1, and the code sends 10. *)
Lemma pageSize_zero_gives_ten :
  parseInt_Z "0" = Some 0%Z
  /\ pageSize_claimed "0" = 1%Z
  /\ pageSizeNum "0" = Fin 10.
Proof. vm_compute. repeat split. Qed.

Lemma pageSize_effective_witness :
  requests (run offline (searchFiles sample_env sample_locale "report" "250") []).1
  = [files_list (Fin 100) "name contains 'report' and trashed = false"
       search_fields "modifiedTime desc"].
Proof.
  apply (proj2 (proj2 (proj2 (proj2 (proj2
           (pageSize_effective sample_env sample_locale offline "" "report" "250" [])))))).
  - vm_compute. reflexivity.
  - vm_compute. reflexivity.
Defined.

(** C8 with the refresh token unset. *)
Lemma missing_credentials_witness :
  (run (drive_with (sample_file "text/plain") "") 
       (callTool env_without_token sample_locale "delete_file" share_args) []).2
  = inr (text_result ("❌ Error: " +:+ missing_credentials)).
Proof.
  apply (proj2 (proj2 (missing_credentials_fail_closed env_without_token sample_locale
                         (drive_with (sample_file "text/plain") "") "delete_file"
                         share_args [] (or_intror (or_intror eq_refl))))
           (mkTool "delete_file" "Move a file to trash in Google Drive"
              [("fileId", "The ID of the file to delete")] ["fileId"])).
  - vm_compute. tauto.
  - reflexivity.
  - intros f [<-|[]]. vm_compute. reflexivity.
Defined.

(** C9 as stated fails: [shareFile] succeeds, the drive has returned the
    id of the new permission, and the text contains neither that id nor
    the id of the file. *)
Lemma shareFile_text_without_id :
  exists text,
    run sharing_drive (shareFile_try sample_env "file-0042" "ann@example.com" "writer") []
    = ([NewClient "client-id" "client-secret" "refresh-token";
        Request (permissions_create "file-0042" "user" "writer" "ann@example.com" "id")
          (inr (mkPermission (value "perm-7731")));
        Request (files_get "file-0042" "name, webViewLink")
          (inr (mkFile undefined (value "report.txt") undefined undefined undefined
                  undefined undefined undefined undefined undefined undefined))],
       inr text)
    /\ contains "report.txt" text
    /\ ~ contains "perm-7731" text
    /\ ~ contains "file-0042" text.
Proof.
  eexists. split; [vm_compute; reflexivity|].
  rewrite <- !containsb_iff. vm_compute. repeat split; discriminate.
Qed.

Lemma successful_text_shows_witness :
  contains "file-0042"
    ("📁 Found 1 file(s):" +:+ LF +:+ LF +:+
     "1. 📄 report.txt" +:+ LF +:+
     "   ID: file-0042" +:+ LF +:+
     "   Type: text/plain" +:+ LF +:+
     "   Size: 1.50 KB" +:+ LF +:+
     "   Modified: 2024-01-02T00:00:00Z" +:+ LF +:+ LF).
Proof.
  apply (proj1 (proj2 (successful_text_shows sample_env sample_locale
                         (drive_with (sample_file "text/plain") "") (ListFiles "" "10") []
                         [NewClient "client-id" "client-secret" "refresh-token";
                          Request (files_list (Fin 10) "trashed = false" list_fields
                                     "modifiedTime desc")
                            (inr (value [sample_file "text/plain"]))]
                         _ eq_refl))
           eq_refl (sample_file "text/plain") "file-0042").
  - vm_compute. auto.
  - reflexivity.
Defined.

(** C10 with a drive that rejects the fetch of the name. *)
Lemma deleteFile_atomic_witness :
  Forall (fun r => mutating r = false)
    (requests (run offline (deleteFile sample_env "file-0042") []).1)
  /\ (run offline (deleteFile sample_env "file-0042") []).2
     = inr (formatError (Error "network unreachable")).
Proof.
  apply (proj2 (proj2 (deleteFile_atomic sample_env offline "file-0042" []))
           (Error "network unreachable")).
  vm_compute. auto.
Defined.

(** ** Further statements at concrete calls *)

(** X2 at 1536 bytes. *)
Lemma formatFileSize_numeral_witness :
  formatFileSize (value "1536") = "1.50 KB".
Proof.
  apply (formatFileSize_numeral 1536).
  split; [discriminate|reflexivity].
Defined.

(** X3 at a page size above the limit. *)
Lemma pageSize_numeral_witness :
  pageSizeNum "250" = Fin (inject_Z 100).
Proof.
  apply (pageSize_numeral 250). discriminate.
Defined.

(** X12: the undeclared arguments of a search make no difference. *)
Lemma arguments_declared_only_witness :
  callTool sample_env sample_locale "search_files" noisy_query_args
  = callTool sample_env sample_locale "search_files" query_args.
Proof.
  apply (arguments_declared_only sample_env sample_locale
           (mkTool "search_files" "Search for files in Google Drive by name"
              [("query", "Search query (file name to search for)");
               ("pageSize", "Number of results to return (1-100, default: 10)")]
              ["query"])
           noisy_query_args query_args).
  - vm_compute. tauto.
  - intros k [<-|[<-|[]]]; vm_compute; reflexivity.
Defined.

(** X14 on a drive that grants the permission and then fails to
    deliver the file's name. *)
Lemma shareFile_error_after_sharing_witness :
  (run permission_only_drive
     (shareFile sample_env "file-0042" "ann@example.com" "writer") []).2
  = inr (formatError (Error "File not found"))
  /\ exists p,
       In (Request (permissions_create "file-0042" "user" "writer"
                      "ann@example.com" "id") (inr p))
          (run permission_only_drive
             (shareFile sample_env "file-0042" "ann@example.com" "writer") []).1.
Proof.
  apply (shareFile_error_after_sharing sample_env permission_only_drive
           "file-0042" "ann@example.com" "writer" [] (Error "File not found")).
  vm_compute. auto 10.
Defined.

(** X15 at a text file. *)
Lemma downloadFile_content_verbatim_witness :
  exists header,
    (run (drive_with (sample_file "text/plain") "a,b")
       (downloadFile sample_env "file-0042") []).2
    = inr (header +:+ "Content:" +:+ LF +:+ LF +:+ "a,b").
Proof.
  apply (downloadFile_content_verbatim sample_env
           (drive_with (sample_file "text/plain") "a,b") "file-0042" []
           (Request (files_get_media "file-0042") (inr "a,b")) "a,b").
  - vm_compute. auto 10.
  - reflexivity.
Defined.

(** X16 on a drive without files. *)
Lemma listing_texts_witness :
  (run empty_drive (listFiles sample_env sample_locale "" "10") []).2
  = inr "📁 No files found".
Proof.
  refine (proj1 (proj1 (listing_texts sample_env sample_locale empty_drive []
                          (Request (files_list (Fin (inject_Z 10)) "trashed = false"
                                      list_fields "modifiedTime desc")
                             (inr (value [])))
                          (value []) eq_refl) "" "10" _) I).
  vm_compute. auto 10.
Defined.

(** X18 at a call of [share_file] with a blank email. *)
Lemma required_arguments_first_witness :
  exists c,
    decode "share_file" blank_email_args = Some c
    /\ run sharing_drive
         (callTool sample_env sample_locale "share_file" blank_email_args) []
       = ([Log INFO (info_line c) None;
           Log ERROR (error_label c) (Some (Error "email is required"))],
          inr (text_result "❌ Error: email is required")).
Proof.
  apply (required_arguments_first sample_env sample_locale sharing_drive
           (mkTool "share_file" "Share a file with a specific user via email"
              [("fileId", "The ID of the file to share");
               ("email", "Email address of the user to share with");
               ("role", "Permission role: reader, writer, or commenter (default: reader)")]
              ["fileId"; "email"])
           blank_email_args []).
  vm_compute. tauto.
Defined.
